(** * AI Sales Orchestrator: the agent orchestration engine

    A shallow embedding of [backend/graph/orchestrator_graph.py],
    [backend/graph/state.py], [backend/agents/base_agent.py] and the six
    agents under [backend/agents/], followed by the properties of the
    orchestration engine: intent routing, fan-out and merge over the shared
    state, the payment failover protocol and the response synthesizer.

    Python values are embedded as the inductive [pyval]; a Python [dict] is an
    insertion-ordered association list, because two places of the code depend
    on the order of the keys ([dict.update] over a list of dicts, and the
    [items()] loop with a [break] of the inventory agent).  Floats are the
    binary64 numbers of [PrimFloat].  Code that raises returns an [Err]; code
    that mutates the shared state threads it through the monad [M]. *)

From Stdlib Require Import ZArith String Ascii List Bool Lia.
From Stdlib Require Import Floats DecimalString.
From stdpp Require Import base option list sets strings.

Set Warnings "-inexact-float,-register-all".
Open Scope string_scope.
Open Scope list_scope.
Open Scope Z_scope.

(** ** Python values *)

Inductive pyval : Type :=
| PNone
| PBool (b : bool)
| PInt (z : Z)
| PFloat (f : float)
| PStr (s : string)
| PList (l : list pyval)
| PDict (d : list (string * pyval)).

Abbreviation dict := (list (string * pyval)).

(** [bool(v)] *)
Definition truthy (v : pyval) : bool :=
  match v with
  | PNone => false
  | PBool b => b
  | PInt z => negb (Z.eqb z 0)
  | PFloat f => negb (PrimFloat.eqb f 0)
  | PStr s => negb (bool_decide (s = ""))
  | PList l => negb (bool_decide (length l = 0%nat))
  | PDict d => negb (bool_decide (length d = 0%nat))
  end.

(** [truthy] of an optional value: what [if state.get(k):] tests. *)
Definition truthy_opt (o : option pyval) : bool :=
  match o with Some v => truthy v | None => false end.

(** ** Dictionaries *)

(** [d.get(k)] / [k in d] *)
Fixpoint dget (k : string) (d : dict) : option pyval :=
  match d with
  | [] => None
  | (k', v) :: d' => if decide (k = k') then Some v else dget k d'
  end.

(** [d[k] = v]: an existing key keeps its position, a new key goes last. *)
Fixpoint dset (k : string) (v : pyval) (d : dict) : dict :=
  match d with
  | [] => [(k, v)]
  | (k', v') :: d' =>
      if decide (k = k') then (k, v) :: d' else (k', v') :: dset k v d'
  end.

(** [d.update(r)] for a dict [r] *)
Definition dupdate (d r : dict) : dict :=
  fold_left (fun acc kv => dset kv.1 kv.2 acc) r d.

(** A dict display [{k1: v1, ...}] with distinct keys is written as the list
    of its items. *)

Definition keys (d : dict) : list string := map fst d.

(** ** Strings *)

(** [w in s] *)
Fixpoint str_contains (w s : string) : bool :=
  if String.prefix w s then true
  else match s with
       | EmptyString => false
       | String _ s' => str_contains w s'
       end.

(** [any(word in request for word in words)] *)
Definition any_in (words : list string) (request : string) : bool :=
  existsb (fun w => str_contains w request) words.

Definition str_of_Z (z : Z) : string := NilZero.string_of_int (Z.to_int z).

Definition str_of_nat (n : nat) : string := str_of_Z (Z.of_nat n).

(** ** Numbers *)

(** [float(z)]: correctly rounded, [None] is [OverflowError]. *)
Definition float_of_Z (z : Z) : option float :=
  match binary_normalize 53 1024 z 0 false with
  | S754_infinity _ => None
  | sf => Some (SF2Prim sf)
  end.

(** [f < z] for a float and an int, compared exactly as Python does. *)
Definition float_lt_int (f : float) (z : Z) : bool :=
  match Prim2SF f with
  | S754_nan => false
  | S754_infinity s => s
  | S754_zero _ => 0 <? z
  | S754_finite s m e =>
      let n := if s then Z.neg m else Z.pos m in
      if 0 <=? e then n * 2 ^ e <? z else n <? z * 2 ^ (- e)
  end.

Definition round_half_even (n d : Z) : Z :=
  let q := n / d in
  let r := n mod d in
  if 2 * r <? d then q
  else if d <? 2 * r then q + 1
  else if Z.even q then q else q + 1.

Fixpoint zeros (n : nat) : string :=
  match n with O => "" | S n' => "0" +:+ zeros n' end.

(** The digits of [n >= 0] with a point before the last [d] digits. *)
Definition fixed_digits (d : nat) (n : Z) : string :=
  let p := 10 ^ Z.of_nat d in
  let frac := str_of_Z (n mod p) in
  match d with
  | O => str_of_Z n
  | _ => str_of_Z (n / p) +:+ "." +:+
         zeros (d - String.length frac) +:+ frac
  end.

(** [format(f, ".<d>f")] *)
Definition format_float (d : nat) (f : float) : string :=
  match Prim2SF f with
  | S754_nan => "nan"
  | S754_infinity s => if s then "-inf" else "inf"
  | S754_zero s => (if s then "-" else "") +:+ fixed_digits d 0
  | S754_finite s m e =>
      let n := Z.pos m * 10 ^ Z.of_nat d in
      let r := if 0 <=? e then n * 2 ^ e else round_half_even n (2 ^ (- e)) in
      (if s then "-" else "") +:+ fixed_digits d r
  end.

(** ** Exceptions and results *)

(** An exception: its class and [str(e)]. *)
Record exn : Type := mk_exn { exn_type : string; exn_msg : string }.

Inductive result (A : Type) : Type :=
| Ok (a : A)
| Err (e : exn).
Arguments Ok {A} a.
Arguments Err {A} e.

Definition KeyError (k : string) : exn := mk_exn "KeyError" ("'" +:+ k +:+ "'").
Definition TypeError (msg : string) : exn := mk_exn "TypeError" msg.
Definition AttributeError (msg : string) : exn := mk_exn "AttributeError" msg.
Definition OverflowError : exn :=
  mk_exn "OverflowError" "int too large to convert to float".

(** [z * f] for an int and a float *)
Definition mul_int_float (z : Z) (f : float) : result float :=
  match float_of_Z z with
  | Some fz => Ok (fz * f)%float
  | None => Err OverflowError
  end.

(** [a - b] on numbers *)
Definition py_sub (a b : pyval) : result pyval :=
  match a, b with
  | PInt x, PInt y => Ok (PInt (x - y))
  | PInt x, PFloat g =>
      match float_of_Z x with
      | Some fx => Ok (PFloat (fx - g)%float)
      | None => Err OverflowError
      end
  | PFloat f, PInt y =>
      match float_of_Z y with
      | Some fy => Ok (PFloat (f - fy)%float)
      | None => Err OverflowError
      end
  | PFloat f, PFloat g => Ok (PFloat (f - g)%float)
  | _, _ => Err (TypeError "unsupported operand type(s) for -")
  end.

(** [format(v, ".<d>f")] on a number *)
Definition py_format_fixed (d : nat) (v : pyval) : result string :=
  match v with
  | PInt z =>
      match float_of_Z z with
      | Some f => Ok (format_float d f)
      | None => Err OverflowError
      end
  | PFloat f => Ok (format_float d f)
  | _ => Err (TypeError "unsupported format string")
  end.

Global Instance result_ret : MRet result := fun A a => Ok a.
Global Instance result_bind : MBind result := fun A B f m =>
  match m with
  | Ok a => f a
  | Err e => Err e
  end.

(** A JSON number, as the data files hold them. *)
Inductive num : Type :=
| NInt (z : Z)
| NFloat (f : float).

Definition py_of_num (n : num) : pyval :=
  match n with NInt z => PInt z | NFloat f => PFloat f end.

(** [z < f] for an int and a float, compared exactly. *)
Definition int_lt_float (z : Z) (f : float) : bool :=
  match Prim2SF f with
  | S754_nan => false
  | S754_infinity s => negb s
  | S754_zero _ => z <? 0
  | S754_finite s m e =>
      let n := if s then Z.neg m else Z.pos m in
      if 0 <=? e then z <? n * 2 ^ e else z * 2 ^ (- e) <? n
  end.

(** [a < b] on numbers *)
Definition num_lt (a b : num) : bool :=
  match a, b with
  | NInt x, NInt y => x <? y
  | NInt x, NFloat g => int_lt_float x g
  | NFloat f, NInt y => float_lt_int f y
  | NFloat f, NFloat g => PrimFloat.ltb f g
  end.

(** ** The data the agents load at start-up

    [data/products.json], [data/stores.json] and [data/customers.json]; a
    file that is missing or unreadable is [None], and each agent then falls
    back to the catalogue written in its loader. *)

Record product : Type := {
  p_product_id : string;
  p_name : string;
  p_brand : string;
  p_price : num;
  p_category : string;
  p_tags : list string;
  p_match_score : option num
}.

Record store : Type := {
  s_store_id : string;
  s_name : string;
  s_location : string;
  s_distance : string
}.

Record customer : Type := {
  c_customer_id : string;
  c_name : string;
  c_loyalty_points : Z;
  c_tier : string
}.

Record data_files : Type := {
  products_json : option (list product);
  stores_json : option (list store);
  customers_json : option (list customer)
}.

(** A payment gateway of [PaymentAgent.gateways]. *)
Record gateway : Type := {
  g_name : string;
  g_success_rate : float;
  g_timeout : float
}.

(** ** The typed part of the shared state

    What [main.py] puts into a session: liked product ids, and cart entries
    [{product_id, quantity, size}] built from a validated [CartUpdate]. *)

Record cart_item : Type := {
  ci_product_id : string;
  ci_quantity : Z;
  ci_size : option string
}.

Definition py_of_opt_str (o : option string) : pyval :=
  match o with Some s => PStr s | None => PNone end.

Definition py_of_cart_item (i : cart_item) : pyval :=
  PDict [("product_id", PStr (ci_product_id i));
         ("quantity", PInt (ci_quantity i));
         ("size", py_of_opt_str (ci_size i))].

Definition cart_item_of_py (v : pyval) : option cart_item :=
  match v with
  | PDict d =>
      match dget "product_id" d, dget "quantity" d, dget "size" d with
      | Some (PStr p), Some (PInt q), Some (PStr s) =>
          Some {| ci_product_id := p; ci_quantity := q; ci_size := Some s |}
      | Some (PStr p), Some (PInt q), Some PNone =>
          Some {| ci_product_id := p; ci_quantity := q; ci_size := None |}
      | _, _, _ => None
      end
  | _ => None
  end.

Definition str_of_py (v : pyval) : option string :=
  match v with PStr s => Some s | _ => None end.

(** What the agents read of the state, each field with the default of its
    [state.get(key, default)]. *)
Record view : Type := {
  v_request : string;
  v_cart : list cart_item;
  v_liked : list string;
  v_location : string;
  v_customer_id : string
}.

Definition get_str (k default : string) (st : dict) : option string :=
  match dget k st with
  | None => Some default
  | Some (PStr s) => Some s
  | Some _ => None
  end.

Definition get_list {A} (decode : pyval -> option A) (k : string) (st : dict)
  : option (list A) :=
  match dget k st with
  | None => Some []
  | Some (PList l) => mapM decode l
  | Some _ => None
  end.

(** [None] when a field is not of the type the session gives it. *)
Definition view_of_state (st : dict) : option view :=
  request ← get_str "current_request" "" st;
  cart ← get_list cart_item_of_py "cart" st;
  liked ← get_list str_of_py "liked_products" st;
  location ← get_str "location" "Mumbai" st;
  customer_id ← get_str "customer_id" "CUST001" st;
  Some {| v_request := request; v_cart := cart; v_liked := liked;
          v_location := location; v_customer_id := customer_id |}.

(** ** Coroutines

    What [await agent._execute(state)] does: it returns, raises, or first
    suspends the task on [asyncio.sleep]. *)

Inductive outcome : Type :=
| Returned (v : pyval)
| Raised (e : exn).

Inductive coro : Type :=
| Finish (o : outcome)
| Sleep (delay : float) (k : coro).

Fixpoint coro_outcome (c : coro) : outcome :=
  match c with
  | Finish o => o
  | Sleep _ k => coro_outcome k
  end.

(** The delays a coroutine sleeps for, in order. *)
Fixpoint coro_sleeps (c : coro) : list float :=
  match c with
  | Finish _ => []
  | Sleep d k => d :: coro_sleeps k
  end.

Definition outcome_of_result (r : result pyval) : outcome :=
  match r with Ok v => Returned v | Err e => Raised e end.

(** An agent: its name and its [_execute]. *)
Record agent : Type := {
  agent_name : string;
  execute : dict -> coro
}.

(** ** Builtins taken as parameters

    [str.lower] follows the Unicode case tables and [repr] of a float is the
    shortest string that reads back; both are the interpreter's, so the
    embedding takes them as a parameter. *)
Class PyRuntime : Type := {
  str_lower : string -> string;
  py_repr : pyval -> string
}.

(** The sources of nondeterminism of a run: the wall clock read by
    [BaseAgent.run] (per agent: start, timestamp, end), the event-loop clock
    and the draws of [random] read by the payment agent (per attempt), and
    the draw of [random.randint] for the transaction identifier. *)
Class World : Type := {
  wall_clock : string -> nat -> float;
  loop_time : nat -> float;
  random_random : nat -> float;
  random_randint : Z
}.

(** ** The state-and-exception monad of the graph nodes *)

Definition M (A : Type) : Type := dict -> dict * result A.

Global Instance M_ret : MRet M := fun A a st => (st, Ok a).
Global Instance M_bind : MBind M := fun A B f m st =>
  match m st with
  | (st', Ok a) => f a st'
  | (st', Err e) => (st', Err e)
  end.

Definition raise {A} (e : exn) : M A := fun st => (st, Err e).
Definition get_state : M dict := fun st => (st, Ok st).

(** [state[k] = v] *)
Definition set_item (k : string) (v : pyval) : M unit :=
  fun st => (dset k v st, Ok tt).

(** [state[k]] *)
Definition get_item (k : string) : M pyval := fun st =>
  match dget k st with
  | Some v => (st, Ok v)
  | None => (st, Err (KeyError k))
  end.

Section Engine.
Context {rt : PyRuntime} {world : World}.

(** [str(v)], as an f-string field renders it. *)
Definition py_str (v : pyval) : string :=
  match v with
  | PStr s => s
  | PInt z => str_of_Z z
  | PBool b => if b then "True" else "False"
  | PNone => "None"
  | _ => py_repr v
  end.

(** ** The intent classifier ([orchestrator_node]) *)

Definition recommendation_words : list string :=
  ["recommend"; "suggest"; "show"; "match"; "pair"; "goes with"].
Definition inventory_words : list string :=
  ["stock"; "available"; "store"; "nearby"; "reserve"].
Definition payment_words : list string :=
  ["pay"; "payment"; "checkout"; "buy"; "purchase"].
Definition fulfillment_words : list string :=
  ["deliver"; "shipping"; "delivery"; "when will"].
Definition loyalty_words : list string :=
  ["discount"; "offer"; "points"; "loyalty"; "coupon"].
Definition support_words : list string :=
  ["return"; "refund"; "exchange"; "problem"; "issue"; "help"].

(** [agents_needed.append(a)] under [if c:] *)
Definition append_if (c : bool) (a : string) (l : list string) : list string :=
  if c then l ++ [a] else l.

(** The list [agents_needed] that [orchestrator_node] builds from the
    lower-cased request and [state.get("cart") or state.get("liked_products")]. *)
Definition select_agents (request : string) (cart_or_liked : bool) : list string :=
  let a := [] in
  let a := append_if (any_in recommendation_words request) "recommendation" a in
  let a := append_if (any_in inventory_words request) "inventory" a in
  let a := append_if (any_in payment_words request) "payment" a in
  let a := append_if (any_in fulfillment_words request) "fulfillment" a in
  let a := append_if (any_in loyalty_words request) "loyalty" a in
  let a := append_if (any_in support_words request) "support" a in
  let a := if cart_or_liked
           then append_if (negb (bool_decide ("recommendation" ∈ a))) "recommendation" a
           else a in
  append_if (negb (bool_decide ("loyalty" ∈ a)) && bool_decide (0 < length a)%nat)
            "loyalty" a.

(** [state["agent_calls"].append(entry)] *)
Definition append_agent_call (entry : dict) : M unit := fun st =>
  match dget "agent_calls" st with
  | Some (PList calls) => (dset "agent_calls" (PList (calls ++ [PDict entry])) st, Ok tt)
  | Some _ => (st, Err (AttributeError "object has no attribute 'append'"))
  | None => (st, Err (KeyError "agent_calls"))
  end.

Definition orchestrator_node : M unit :=
  r ← get_item "current_request";
  match r with
  | PStr req =>
      let request := str_lower req in
      st ← get_state;
      let cart_or_liked := truthy_opt (dget "cart" st) || truthy_opt (dget "liked_products" st) in
      let agents_needed := select_agents request cart_or_liked in
      set_item "agents_needed" (PList (map PStr agents_needed));;
      append_agent_call
        [("agent", PStr "orchestrator");
         ("action", PStr "analyzed_request");
         ("agents_to_call", PList (map PStr agents_needed))]
  | _ => raise (AttributeError "object has no attribute 'lower'")
  end.

(** ** The registered agents *)

Context (data : data_files).

(** *** RecommendationAgent *)

Definition mock_products : list product :=
  [ {| p_product_id := "VH001"; p_name := "Classic Blue Formal Shirt";
       p_brand := "Van Heusen"; p_price := NInt 2500;
       p_category := "Formal Shirts"; p_tags := ["wedding"; "formal"; "office"];
       p_match_score := Some (NFloat 0.95) |};
    {| p_product_id := "VH002"; p_name := "Navy Blue Silk Tie";
       p_brand := "Van Heusen"; p_price := NInt 800;
       p_category := "Ties"; p_tags := ["formal"; "wedding"];
       p_match_score := Some (NFloat 0.85) |};
    {| p_product_id := "VH003"; p_name := "Brown Leather Belt";
       p_brand := "Van Heusen"; p_price := NInt 1200;
       p_category := "Belts"; p_tags := ["formal"; "casual"];
       p_match_score := Some (NFloat 0.78) |} ].

(** [RecommendationAgent._load_products] *)
Definition recommendation_products : list product :=
  match products_json data with
  | Some ps => ps
  | None => mock_products
  end.

(** A catalogue entry as the dict [json.load] gives. *)
Definition py_of_product (p : product) : dict :=
  [("product_id", PStr (p_product_id p));
   ("name", PStr (p_name p));
   ("brand", PStr (p_brand p));
   ("price", py_of_num (p_price p));
   ("category", PStr (p_category p));
   ("tags", PList (map PStr (p_tags p)))]
  ++ match p_match_score p with
     | Some m => [("match_score", py_of_num m)]
     | None => []
     end.

Definition _get_matching_products (liked_product_ids : list string) : list product :=
  let matched :=
    filter (fun p =>
              existsb (String.prefix "VH") liked_product_ids = true
              ∧ p_category p ∈ ["Ties"; "Belts"; "Trousers"])
           recommendation_products in
  match matched with
  | [] => take 3 recommendation_products
  | _ => matched
  end.

Definition _get_complementary_products (cart : list cart_item) : list product :=
  _get_matching_products (map ci_product_id cart).

(** [x.get("match_score", 0)] *)
Definition match_score (p : product) : num :=
  match p_match_score p with Some m => m | None => NInt 0 end.

Fixpoint insert_desc (x : product) (l : list product) : list product :=
  match l with
  | [] => [x]
  | y :: l' =>
      if num_lt (match_score y) (match_score x) then x :: y :: l'
      else y :: insert_desc x l'
  end.

(** [sorted(self.products, key=..., reverse=True)]: descending and stable. *)
Definition _get_trending_products : list product :=
  fold_left (fun acc x => insert_desc x acc) recommendation_products [].

Definition _generate_reasoning (p : product) (v : view) : string :=
  if bool_decide (v_liked v ≠ []) then "Pairs perfectly with your liked items"
  else if bool_decide (v_cart v ≠ []) then "Completes your look"
  else "Popular choice for " +:+ String.concat ", " (take 2 (p_tags p)).

Definition recommendation_execute (v : view) : coro :=
  let recommendations :=
    if bool_decide (v_liked v ≠ []) then _get_matching_products (v_liked v)
    else if bool_decide (v_cart v ≠ []) then _get_complementary_products (v_cart v)
    else _get_trending_products in
  let recs :=
    map (fun p => PDict (dset "reasoning" (PStr (_generate_reasoning p v))
                              (py_of_product p)))
        recommendations in
  Finish (Returned (PDict
    [("recommendations", PList (take 5 recs));
     ("total_found", PInt (Z.of_nat (length recommendations)))])).

(** *** InventoryAgent *)

Definition mock_stores : list store :=
  [ {| s_store_id := "S001"; s_name := "Bandra Store";
       s_location := "Mumbai"; s_distance := "2km" |};
    {| s_store_id := "S002"; s_name := "Powai Store";
       s_location := "Mumbai"; s_distance := "5km" |};
    {| s_store_id := "S003"; s_name := "Andheri Store";
       s_location := "Mumbai"; s_distance := "7km" |} ].

(** [InventoryAgent._load_stores] *)
Definition inventory_stores : list store :=
  match stores_json data with
  | Some ss => ss
  | None => mock_stores
  end.

(** [products_dict[p["product_id"]] = p] *)
Fixpoint products_dict_set (pid : string) (p : product)
  (d : list (string * product)) : list (string * product) :=
  match d with
  | [] => [(pid, p)]
  | (pid', p') :: d' =>
      if decide (pid = pid') then (pid, p) :: d'
      else (pid', p') :: products_dict_set pid p d'
  end.

(** [InventoryAgent._load_products]: the catalogue keyed by product id, empty
    when the file cannot be read. *)
Definition inventory_products : list (string * product) :=
  match products_json data with
  | Some ps => fold_left (fun d p => products_dict_set (p_product_id p) p d) ps []
  | None => []
  end.

Definition _find_nearby_stores (location : string) : list pyval :=
  map (fun s => PDict [("name", PStr (s_name s));
                       ("distance", PStr (s_distance s));
                       ("stock_available", PBool true);
                       ("stock_count", PInt 3)])
      inventory_stores.

(** The loop of [_find_alternative_products], which breaks once three
    alternatives are collected. *)
Fixpoint alternatives_loop (product_id : string)
  (items : list (string * product)) (alternatives : list pyval) : list pyval :=
  match items with
  | [] => alternatives
  | (pid, p) :: rest =>
      if decide (pid ≠ product_id) then
        let alternatives :=
          alternatives ++
          [PDict [("product_id", PStr pid);
                  ("name", PStr (p_name p));
                  ("price", py_of_num (p_price p));
                  ("similarity", PFloat 0.85)]] in
        if bool_decide (3 ≤ length alternatives)%nat then alternatives
        else alternatives_loop product_id rest alternatives
      else alternatives_loop product_id rest alternatives
  end.

Definition _find_alternative_products (product_id : string) : list pyval :=
  alternatives_loop product_id inventory_products [].

Definition _check_stock (product_id : string) (size : option string)
  (location : string) : dict :=
  if decide (product_id = "VH001") then
    [("available", PBool true);
     ("product_id", PStr product_id);
     ("size", py_of_opt_str size);
     ("store", PStr "Bandra Store");
     ("stock", PInt 3);
     ("distance", PStr "2km");
     ("can_reserve", PBool true)]
  else if bool_decide (product_id = "VH999") || str_contains "out" (str_lower product_id) then
    let nearby_stores := _find_nearby_stores location in
    let alternatives := _find_alternative_products product_id in
    [("available", PBool false);
     ("product_id", PStr product_id);
     ("size", py_of_opt_str size);
     ("message", PStr ("Size " +:+ py_str (py_of_opt_str size)
                       +:+ " unavailable at your location"));
     ("nearby_stores", PList (take 2 nearby_stores));
     ("alternatives", PList (take 2 alternatives));
     ("restock_date", PStr "3 days")]
  else
    [("available", PBool true);
     ("product_id", PStr product_id);
     ("size", py_of_opt_str size);
     ("store", PStr "Bandra Store");
     ("stock", PInt 5);
     ("distance", PStr "2km")].

Definition _check_cart_availability (cart : list cart_item) (location : string) : dict :=
  let unavailable_items :=
    omap (fun item =>
            let stock_info := _check_stock (ci_product_id item) (ci_size item) location in
            if truthy_opt (dget "available" stock_info) then None
            else Some (PStr (ci_product_id item)))
         cart in
  let all_available := bool_decide (unavailable_items = []) in
  [("all_available", PBool all_available);
   ("unavailable_items", PList unavailable_items);
   ("message", PStr (if all_available then "All items available"
                     else "Some items unavailable"))].

Definition inventory_execute (v : view) : coro :=
  let request := str_lower (v_request v) in
  let cart := v_cart v in
  let location := v_location v in
  Finish (Returned (
    if str_contains "stock" request || str_contains "available" request then
      match cart with
      | item :: _ => PDict (_check_stock (ci_product_id item) (ci_size item) location)
      | [] => PDict (_check_stock "VH001" (Some "40") location)
      end
    else if str_contains "store" request || str_contains "nearby" request then
      PList (_find_nearby_stores location)
    else
      match cart with
      | _ :: _ => PDict (_check_cart_availability cart location)
      | [] => PDict [("available", PBool true); ("message", PStr "All items in stock")]
      end)).

(** *** PaymentAgent *)

Definition configured_gateways : list gateway :=
  [ {| g_name := "Razorpay"; g_success_rate := 0.3; g_timeout := 1.2 |};
    {| g_name := "PayU"; g_success_rate := 0.3; g_timeout := 0.8 |};
    {| g_name := "UPI Direct"; g_success_rate := 1.0; g_timeout := 0.7 |} ].

(** [sum(2500 * item.get("quantity", 1) for item in cart)] *)
Definition cart_value (cart : list cart_item) : Z :=
  fold_left (fun total item => total + 2500 * ci_quantity item) cart 0.

Definition _calculate_total (cart : list cart_item) : pyval :=
  match cart with
  | [] => PFloat 3950.0
  | _ => PInt (cart_value cart)
  end.

(** [_attempt_payment], after its sleep: the [n]-th draw of the run against
    the gateway's success rate. *)
Definition attempt_succeeds (n : nat) (g : gateway) : bool :=
  PrimFloat.ltb (random_random n) (g_success_rate g).

Definition retry_entry (n : nat) (g : gateway) (success : bool) : pyval :=
  PDict [("gateway", PStr (g_name g));
         ("status", PStr (if success then "success" else "failed"));
         ("timestamp", PFloat (loop_time n))].

(** [sum(g["timeout"] for g in gs)] *)
Definition sum_timeouts (gs : list gateway) : float :=
  fold_left (fun total g => (total + g_timeout g)%float) gs 0%float.

(** [f"{sum(...):.1f}s"] *)
Definition total_time (gs : list gateway) : string :=
  format_float 1 (sum_timeouts gs) +:+ "s".

(** The loop of [_process_payment_with_retry] over the gateways still to try;
    [retry_history] holds the attempts made so far. *)
Fixpoint retry_loop (gateways : list gateway) (amount : pyval)
  (remaining : list gateway) (retry_history : list pyval) : coro :=
  match remaining with
  | [] =>
      Finish (Returned (PDict
        [("success", PBool false);
         ("status", PStr "failed");
         ("amount", amount);
         ("retry_history", PList retry_history);
         ("message", PStr "All payment methods failed. Please try again later.")]))
  | g :: rest =>
      Sleep (g_timeout g)
        (let n := length retry_history in
         let success := attempt_succeeds n g in
         let retry_history := retry_history ++ [retry_entry n g success] in
         if success then
           Finish (Returned (PDict
             [("success", PBool true);
              ("status", PStr "completed");
              ("amount", amount);
              ("gateway", PStr (g_name g));
              ("transaction_id", PStr ("TXN" +:+ str_of_Z random_randint));
              ("retry_history", PList retry_history);
              ("total_time", PStr (total_time (take (length retry_history) gateways)));
              ("message", PStr ("Payment successful via " +:+ g_name g +:+ "!"))]))
         else retry_loop gateways amount rest retry_history)
  end.

Definition _process_payment_with_retry (gateways : list gateway) (amount : pyval) : coro :=
  retry_loop gateways amount gateways [].

Definition payment_execute_with (gateways : list gateway) (v : view) : coro :=
  let request := str_lower (v_request v) in
  let total_amount := _calculate_total (v_cart v) in
  if str_contains "pay" request || str_contains "checkout" request
     || str_contains "purchase" request
  then _process_payment_with_retry gateways total_amount
  else Finish (Returned (PDict
         [("status", PStr "pending");
          ("amount", total_amount);
          ("message", PStr "Ready to process payment")])).

Definition payment_execute : view -> coro :=
  payment_execute_with configured_gateways.

(** *** FulfillmentAgent *)

Definition delivery_options : pyval :=
  PList
    [PDict [("type", PStr "express");
            ("timeline", PStr "Tomorrow 10 AM");
            ("cost", PInt 99);
            ("available", PBool true)];
     PDict [("type", PStr "standard");
            ("timeline", PStr "2-3 days");
            ("cost", PInt 0);
            ("available", PBool true)];
     PDict [("type", PStr "store_pickup");
            ("timeline", PStr "Today 6 PM");
            ("cost", PInt 0);
            ("available", PBool true);
            ("store", PStr "Bandra Store")]].

Definition fulfillment_execute (v : view) : coro :=
  let cart := v_cart v in
  Finish (Returned (PDict
    match cart with
    | [] => [("status", PStr "no_order"); ("message", PStr "No items to deliver")]
    | _ =>
        let big := 4000 <? cart_value cart in
        [("status", PStr "available");
         ("delivery_options", delivery_options);
         ("recommended", PStr (if big then "standard" else "express"));
         ("timeline", PStr (if big then "2-3 days" else "Tomorrow"));
         ("message", PStr (if big then "Free delivery available!"
                           else "Express delivery available"))]
    end)).

(** *** LoyaltyAgent *)

Definition mock_customers : list customer :=
  [ {| c_customer_id := "CUST001"; c_name := "Rahul Sharma";
       c_loyalty_points := 500; c_tier := "Gold" |} ].

(** [LoyaltyAgent._load_customers] *)
Definition loyalty_customers : list customer :=
  match customers_json data with
  | Some cs => cs
  | None => mock_customers
  end.

(** [self.customers.get(customer_id, {})]: of two records with one id the
    dict keeps the later. *)
Definition find_customer (customer_id : string) : option customer :=
  last (filter (fun c => c_customer_id c = customer_id) loyalty_customers).

(** [min(a, b)] for an int [a] and a float [b] *)
Definition min_int_float (a : Z) (b : float) : pyval :=
  if float_lt_int b a then PFloat b else PInt a.

Definition loyalty_result (v : view) : result pyval :=
  let cart := v_cart v in
  let points_available :=
    match find_customer (v_customer_id v) with
    | Some c => c_loyalty_points c
    | None => 500
    end in
  let cart_value := cart_value cart in
  '(offers, discount_amount) ←
    (if bool_decide (3 ≤ length cart)%nat then
       d ← mul_int_float cart_value 0.20;
       Ok (["Bundle Offer: 20% off on 3+ items"], PFloat d)
     else if bool_decide (2 ≤ length cart)%nat then
       d ← mul_int_float cart_value 0.10;
       Ok (["Multi-buy: 10% off on 2+ items"], PFloat d)
     else Ok ([], PInt 0));
  let points_value := points_available in
  after_discount ← py_sub (PInt cart_value) discount_amount;
  tenth ← mul_int_float cart_value 0.1;
  final_price ← py_sub after_discount (min_int_float points_value tenth);
  savings ← py_sub (PInt cart_value) final_price;
  saving_text ← py_format_fixed 0 savings;
  Ok (PDict
    [("status", PStr "calculated");
     ("points_available", PInt points_available);
     ("points_value", PInt points_value);
     ("offers", PList (map PStr offers));
     ("discount_amount", discount_amount);
     ("original_price", PInt cart_value);
     ("final_price", final_price);
     ("savings", savings);
     ("message", PStr ("You're saving ₹" +:+ saving_text +:+ "!"))]).

Definition loyalty_execute (v : view) : coro :=
  Finish (outcome_of_result (loyalty_result v)).

(** *** SupportAgent *)

Definition _handle_return_request : dict :=
  [("status", PStr "eligible");
   ("return_window", PStr "30 days");
   ("conditions", PList [PStr "Unused with tags"; PStr "Original packaging"]);
   ("refund_timeline", PStr "5-7 days");
   ("pickup_available", PBool true);
   ("message", PStr "You can return this item within 30 days. Pickup can be scheduled.")].

Definition _handle_exchange_request : dict :=
  [("status", PStr "eligible");
   ("exchange_options",
    PList [PStr "Different size"; PStr "Different color"; PStr "Different product"]);
   ("timeline", PStr "3-5 days for exchange");
   ("cost", PStr "Free exchange");
   ("message", PStr "We can arrange an exchange. What would you like instead?")].

Definition _provide_general_help : dict :=
  [("status", PStr "available");
   ("help_topics",
    PList [PStr "Order tracking"; PStr "Returns & Exchanges";
           PStr "Payment issues"; PStr "Product questions"]);
   ("contact",
    PDict [("phone", PStr "1800-XXX-XXXX");
           ("email", PStr "support@vanheusen.com");
           ("chat", PStr "Available 24/7")]);
   ("message", PStr "I can help you with orders, returns, or any questions!")].

Definition support_execute (v : view) : coro :=
  let request := str_lower (v_request v) in
  Finish (Returned (PDict (
    if str_contains "return" request || str_contains "refund" request then
      _handle_return_request
    else if str_contains "exchange" request || str_contains "replace" request then
      _handle_exchange_request
    else if str_contains "help" request || str_contains "issue" request then
      _provide_general_help
    else
      [("status", PStr "ready");
       ("message",
        PStr "I'm here to help! You can ask about returns, exchanges, or any issues.")]))).

(** *** The agent instances of [orchestrator_graph.py] *)

(** An [_execute] on the state: the agents read it through [view_of_state]. *)
Definition on_view (f : view -> coro) (st : dict) : coro :=
  match view_of_state st with
  | Some v => f v
  | None => Finish (Raised (TypeError "state field of an unexpected type"))
  end.

Definition recommendation_agent : agent :=
  {| agent_name := "Recommendation Agent"; execute := on_view recommendation_execute |}.
Definition inventory_agent : agent :=
  {| agent_name := "Inventory Agent"; execute := on_view inventory_execute |}.
Definition payment_agent : agent :=
  {| agent_name := "Payment Agent"; execute := on_view payment_execute |}.
Definition fulfillment_agent : agent :=
  {| agent_name := "Fulfillment Agent"; execute := on_view fulfillment_execute |}.
Definition loyalty_agent : agent :=
  {| agent_name := "Loyalty Agent"; execute := on_view loyalty_execute |}.
Definition support_agent : agent :=
  {| agent_name := "Support Agent"; execute := on_view support_execute |}.

(** ** [BaseAgent.run] *)

Definition processing_entry (a : agent) : dict :=
  [("agent", PStr (agent_name a));
   ("timestamp", PFloat (wall_clock (agent_name a) 1));
   ("status", PStr "processing")].

(** [time.time() - start_time] *)
Definition execution_time (a : agent) : pyval :=
  PFloat (wall_clock (agent_name a) 2 - wall_clock (agent_name a) 0)%float.

Definition success_fields (a : agent) (r : pyval) : dict :=
  [("status", PStr "success");
   ("execution_time", execution_time a);
   ("result", r)].

Definition failed_fields (a : agent) (e : exn) : dict :=
  [("status", PStr "failed");
   ("execution_time", execution_time a);
   ("error", PStr (exn_msg e))].

(** [state["agent_calls"][-1].update(fields)] *)
Definition update_last_call (fields : dict) : M unit := fun st =>
  match dget "agent_calls" st with
  | Some (PList calls) =>
      match last calls with
      | Some (PDict entry) =>
          (dset "agent_calls"
                (PList (<[Nat.pred (length calls) := PDict (dupdate entry fields)]> calls))
                st,
           Ok tt)
      | Some _ => (st, Err (AttributeError "object has no attribute 'update'"))
      | None => (st, Err (mk_exn "IndexError" "list index out of range"))
      end
  | Some _ => (st, Err (TypeError "object is not subscriptable"))
  | None => (st, Err (KeyError "agent_calls"))
  end.

(** [run] up to the [await]: the entry is appended and [_execute] is called
    on the state. *)
Definition run_begin (a : agent) : M coro :=
  append_agent_call (processing_entry a);;
  st ← get_state;
  mret (execute a st).

(** [run] from the end of [_execute]: the entry that is last in the log at
    that moment is updated, and the result (or [{}]) is returned. *)
Definition run_end (a : agent) (o : outcome) : M pyval :=
  match o with
  | Returned r => update_last_call (success_fields a r);; mret r
  | Raised e => update_last_call (failed_fields a e);; mret (PDict [])
  end.


(** ** [asyncio.gather]

    The event loop starts the tasks in the order they were created and runs
    each until it finishes or suspends.  A task that sleeps is resumed once
    the tasks started after it have run; of the registered agents only the
    payment agent sleeps, so a resumed task runs its remaining steps with no
    other task in between.  [gather] returns the results in task order. *)

Inductive task_state : Type :=
| Completed (r : pyval)
| Suspended (k : coro).

Definition task_start (a : agent) : M task_state :=
  c ← run_begin a;
  match c with
  | Finish o => r ← run_end a o; mret (Completed r)
  | Sleep _ k => mret (Suspended k)
  end.

Definition task_resume (t : agent * task_state) : M pyval :=
  match t.2 with
  | Completed r => mret r
  | Suspended k => run_end t.1 (coro_outcome k)
  end.

Definition gather (tasks : list agent) : M (list pyval) :=
  started ← mapM task_start tasks;
  mapM task_resume (zip tasks started).

(** ** [call_agents_node] *)

Definition lift {A} (r : result A) : M A := fun st => (st, r).

(** [name in v] *)
Definition py_in (name : string) (v : pyval) : result bool :=
  match v with
  | PList l =>
      Ok (existsb (fun x => match x with
                            | PStr s => bool_decide (name = s)
                            | _ => false
                            end) l)
  | PStr s => Ok (str_contains name s)
  | PDict d => Ok (bool_decide (is_Some (dget name d)))
  | _ => Err (TypeError "argument is not iterable")
  end.

(** The agent instances by the id the classifier uses, in the order
    [call_agents_node] tests them. *)
Definition registered_agents : list (string * agent) :=
  [("recommendation", recommendation_agent);
   ("inventory", inventory_agent);
   ("payment", payment_agent);
   ("fulfillment", fulfillment_agent);
   ("loyalty", loyalty_agent);
   ("support", support_agent)].

Fixpoint build_tasks (registry : list (string * agent)) (agents_needed : pyval)
  : result (list agent) :=
  match registry with
  | [] => Ok []
  | (name, a) :: rest =>
      b ← py_in name agents_needed;
      tasks ← build_tasks rest agents_needed;
      Ok (if b : bool then a :: tasks else tasks)
  end.

Definition ValueError (msg : string) : exn := mk_exn "ValueError" msg.

(** [state.update(l)] for a list [l]: every element has to be a pair; a dict
    of two keys counts as the pair of its keys. *)
Fixpoint update_from_seq (i : nat) (l : list pyval) : M unit :=
  match l with
  | [] => mret tt
  | PDict [(k1, _); (k2, _)] :: rest =>
      set_item k1 (PStr k2);; update_from_seq (S i) rest
  | PDict e :: _ =>
      raise (ValueError ("dictionary update sequence element #" +:+ str_of_nat i
                         +:+ " has length " +:+ str_of_nat (length e)
                         +:+ "; 2 is required"))
  | _ :: _ =>
      raise (TypeError ("cannot convert dictionary update sequence element #"
                        +:+ str_of_nat i +:+ " to a sequence"))
  end.

(** [state.update(result)]: an agent returns a dict or, the inventory agent
    on a store query, a list of dicts. *)
Definition state_update (r : pyval) : M unit :=
  match r with
  | PDict d => fun st => (dupdate st d, Ok tt)
  | PList l => update_from_seq 0 l
  | _ => raise (TypeError "object is not iterable")
  end.

(** [for result in results: if result: state.update(result)] *)
Fixpoint merge_results (results : list pyval) : M unit :=
  match results with
  | [] => mret tt
  | r :: rest =>
      (if truthy r then state_update r else mret tt);;
      merge_results rest
  end.

Definition call_agents_node_with (registry : list (string * agent)) : M unit :=
  st ← get_state;
  let agents_needed := default (PList []) (dget "agents_needed" st) in
  tasks ← lift (build_tasks registry agents_needed);
  match tasks with
  | [] => mret tt
  | _ => results ← gather tasks; merge_results results
  end.

Definition call_agents_node : M unit := call_agents_node_with registered_agents.

Definition should_call_agents (st : dict) : string :=
  if truthy_opt (dget "agents_needed" st) then "call_agents" else "simple_response".

(** ** [synthesize_response_node] *)

Definition newline : string := String (ascii_of_nat 10) EmptyString.

(** [d[k]] *)
Definition subscript (d : pyval) (k : string) : result pyval :=
  match d with
  | PDict e =>
      match dget k e with
      | Some v => Ok v
      | None => Err (KeyError k)
      end
  | _ => Err (TypeError "indices must be integers or the object is not subscriptable")
  end.

(** [d.get(k)] *)
Definition py_get (d : pyval) (k : string) : result (option pyval) :=
  match d with
  | PDict e => Ok (dget k e)
  | _ => Err (AttributeError "object has no attribute 'get'")
  end.

(** [v[0]] on a non-empty list, as the loyalty agent builds its offers. *)
Definition first_item (v : pyval) : result pyval :=
  match v with
  | PList (x :: _) => Ok x
  | PList [] => Err (mk_exn "IndexError" "list index out of range")
  | PStr (String c _) => Ok (PStr (String c EmptyString))
  | PStr EmptyString => Err (mk_exn "IndexError" "string index out of range")
  | PDict _ => Err (mk_exn "KeyError" "0")
  | _ => Err (TypeError "object is not subscriptable")
  end.

(** The parts a slot contributes: none unless the slot is truthy. *)
Definition when_slot (k : string) (section : pyval -> result (list string))
  (st : dict) : result (list string) :=
  match dget k st with
  | Some v => if truthy v then section v else Ok []
  | None => Ok []
  end.

Definition greeting_text : string :=
  "Hi! I'm your AI shopping assistant. How can I help you today?".

Definition fallback_text : string :=
  "I'm here to help! You can ask me about products, check availability, or place an order.".

Definition found_line (n : nat) : string :=
  "Based on your preferences, I found " +:+ str_of_nat n +:+ " items you might love:".

(** [f"<bullet> {name} - <rupee>{price}"], the bullet and the rupee sign as
    the source file spells them. *)
Definition item_text (name price : pyval) : string :=
  "â€¢ " +:+ py_str name +:+ " - â‚¹" +:+ py_str price.

Definition item_line (rec : pyval) : result string :=
  name ← subscript rec "name";
  price ← subscript rec "price";
  Ok (item_text name price).

Definition recommendations_section (recs : pyval) : result (list string) :=
  match recs with
  | PList l =>
      lines ← mapM item_line (take 3 l);
      Ok (found_line (length l) :: lines)
  | _ => Err (TypeError "object has no len() or cannot be sliced")
  end.

Definition inventory_section (inv : pyval) : result (list string) :=
  available ← py_get inv "available";
  if truthy_opt available then
    store ← subscript inv "store";
    stock ← subscript inv "stock";
    Ok ["âœ“ Available at " +:+ py_str store +:+ " (" +:+ py_str stock +:+ " in stock)"]
  else
    alternative ← py_get inv "alternative";
    Ok ["Currently unavailable. Alternative: "
        +:+ py_str (default (PStr "Check other stores") alternative)].

Definition loyalty_section (loyalty : pyval) : result (list string) :=
  points ← py_get loyalty "points_available";
  points_part ←
    (if truthy_opt points then
       p ← subscript loyalty "points_available";
       value ← subscript loyalty "value";
       Ok ["ðŸ’Ž You have " +:+ py_str p +:+ " loyalty points (â‚¹" +:+ py_str value +:+ ")"]
     else Ok []);
  offers ← py_get loyalty "offers";
  offers_part ←
    (if truthy_opt offers then
       o ← subscript loyalty "offers";
       top ← first_item o;
       Ok ["ðŸŽ Special offer: " +:+ py_str top]
     else Ok []);
  Ok (points_part ++ offers_part).

Definition payment_section (payment : pyval) : result (list string) :=
  success ← py_get payment "success";
  if truthy_opt success then
    txn ← subscript payment "transaction_id";
    Ok ["âœ… Payment successful! Transaction ID: " +:+ py_str txn]
  else
    message ← py_get payment "message";
    Ok ["âš ï¸ Payment issue: " +:+ py_str (default (PStr "Please try again") message)].

Definition fulfillment_section (fulfillment : pyval) : result (list string) :=
  timeline ← py_get fulfillment "timeline";
  Ok ["ðŸ“¦ Delivery: " +:+ py_str (default (PStr "2-3 days") timeline)].

(** [response_parts.append(support.get("message", ""))]; the join at the end
    raises on a part that is not a string. *)
Definition support_section (support : pyval) : result (list string) :=
  message ← py_get support "message";
  match default (PStr "") message with
  | PStr s => Ok [s]
  | _ => Err (TypeError "sequence item: expected str instance")
  end.

(** [response_parts] before the fallback is added. *)
Definition response_sections (st : dict) : result (list string) :=
  let greeting := if truthy_opt (dget "messages" st) then [] else [greeting_text] in
  recommendations ← when_slot "recommendations" recommendations_section st;
  inventory ← when_slot "inventory_status" inventory_section st;
  loyalty ← when_slot "loyalty_info" loyalty_section st;
  payment ← when_slot "payment_status" payment_section st;
  fulfillment ← when_slot "fulfillment_info" fulfillment_section st;
  support ← when_slot "support_info" support_section st;
  Ok (greeting ++ recommendations ++ inventory ++ loyalty ++ payment
      ++ fulfillment ++ support).

Definition response_parts (st : dict) : result (list string) :=
  parts ← response_sections st;
  Ok (match parts with [] => [fallback_text] | _ => parts end).

Definition synthesize_response_node : M unit :=
  st ← get_state;
  parts ← lift (response_parts st);
  set_item "response" (PStr (String.concat (newline +:+ newline) parts)).

(** ** [simple_response_node] *)

Definition greeting_reply : string :=
  "Hello! I'm your AI shopping assistant. I can help you find products, check availability, and complete your purchase. What are you looking for today?".

Definition thanks_reply : string :=
  "You're welcome! Is there anything else I can help you with?".

Definition default_reply : string :=
  "I'm here to help! You can ask me about products, availability, or placing an order.".

Definition canned_reply (request : string) : string :=
  if any_in ["hi"; "hello"; "hey"] request then greeting_reply
  else if any_in ["thank"; "thanks"] request then thanks_reply
  else default_reply.

Definition simple_response_node : M unit :=
  r ← get_item "current_request";
  match r with
  | PStr req => set_item "response" (PStr (canned_reply (str_lower req)))
  | _ => raise (AttributeError "object has no attribute 'lower'")
  end.

(** ** The graph of [create_orchestrator_graph]

    Entry point [orchestrator]; a conditional edge to [call_agents] or
    [simple_response]; from each of the two an edge to [synthesize]; from
    [synthesize] to [END].  The nodes run one after the other on the one
    state. *)

Definition orchestrator_graph : M unit :=
  orchestrator_node;;
  st ← get_state;
  (if decide (should_call_agents st = "call_agents") then call_agents_node
   else simple_response_node);;
  synthesize_response_node.

(** ** [create_initial_state] ([state.py]) *)

Definition create_initial_state (session_id customer_id channel current_request : string)
  (messages : list pyval) (liked_products : list string) (cart : list cart_item)
  (location : string) : dict :=
  [("session_id", PStr session_id);
   ("customer_id", PStr customer_id);
   ("channel", PStr channel);
   ("current_request", PStr current_request);
   ("messages", PList messages);
   ("intent", PNone);
   ("liked_products", PList (map PStr liked_products));
   ("cart", PList (map py_of_cart_item cart));
   ("location", PStr location);
   ("agent_calls", PList []);
   ("agents_needed", PList []);
   ("recommendations", PNone);
   ("inventory_status", PNone);
   ("payment_status", PNone);
   ("fulfillment_info", PNone);
   ("loyalty_info", PNone);
   ("support_info", PNone);
   ("response", PStr "");
   ("next_action", PNone);
   ("error", PNone)].

(** ** [run_orchestrator] ([main.py]) *)

(** What [run_orchestrator] reads of a session. *)
Record session : Type := {
  customer_id : string;
  conversation_history : list pyval;
  liked_products : list string;
  cart : list cart_item;
  location : string
}.

(** The state [run_orchestrator] hands to the graph. *)
Definition graph_input (session_id : string) (s : session) (message channel : string) : dict :=
  [("session_id", PStr session_id);
   ("customer_id", PStr (customer_id s));
   ("channel", PStr channel);
   ("current_request", PStr message);
   ("messages", PList (conversation_history s));
   ("liked_products", PList (map PStr (liked_products s)));
   ("cart", PList (map py_of_cart_item (cart s)));
   ("location", PStr (location s));
   ("agent_calls", PList []);
   ("response", PStr "")].

Definition apology : string :=
  "I apologize, but I'm having trouble processing your request. Please try again.".

Definition run_orchestrator (session_id : string) (s : session) (message channel : string) : dict :=
  match orchestrator_graph (graph_input session_id s message channel) with
  | (result, Ok _) => result
  | (_, Err e) =>
      [("success", PBool false);
       ("response", PStr apology);
       ("error", PStr (exn_msg e))]
  end.

(** * Properties *)

(** ** Dictionaries *)

Lemma dget_dset (k k' : string) (v : pyval) (d : dict) :
  dget k (dset k' v d) = if decide (k = k') then Some v else dget k d.
Proof.
  induction d as [|[k0 v0] d IH]; simpl.
  - by repeat case_decide.
  - repeat (case_decide; simpl; subst); congruence.
Qed.

Lemma dget_dset_eq (k : string) (v : pyval) (d : dict) :
  dget k (dset k v d) = Some v.
Proof. rewrite dget_dset. by case_decide. Qed.

Lemma dget_dset_ne (k k' : string) (v : pyval) (d : dict) :
  k ≠ k' → dget k (dset k' v d) = dget k d.
Proof. intros. rewrite dget_dset. by case_decide. Qed.

Lemma dget_dupdate_notin (k : string) (d r : dict) :
  k ∉ keys r → dget k (dupdate d r) = dget k d.
Proof.
  unfold dupdate, keys. revert d.
  induction r as [|[k' v] r IH]; intros d Hk; simpl in *; [done|].
  apply not_elem_of_cons in Hk as [Hne Hk].
  rewrite IH; [|done]. by apply dget_dset_ne.
Qed.

Lemma dget_dupdate_in (k : string) (d r : dict) (v : pyval) :
  NoDup (keys r) → (k, v) ∈ r → dget k (dupdate d r) = Some v.
Proof.
  unfold dupdate, keys. revert d.
  induction r as [|[k' v'] r IH]; intros d Hnd Hin; simpl in *.
  - by apply elem_of_nil in Hin.
  - apply NoDup_cons in Hnd as [Hk' Hnd].
    apply elem_of_cons in Hin as [[= <- <-]|Hin].
    + fold (dupdate (dset k v d) r). rewrite dget_dupdate_notin; [|done].
      apply dget_dset_eq.
    + by apply IH.
Qed.

(** ** The intent classifier *)

(** The six keyword groups, in the order the rules are applied. *)
Definition keyword_groups : list (string * list string) :=
  [("recommendation", recommendation_words);
   ("inventory", inventory_words);
   ("payment", payment_words);
   ("fulfillment", fulfillment_words);
   ("loyalty", loyalty_words);
   ("support", support_words)].

(** Duplicates suppressed, first-seen order preserved. *)
Fixpoint first_seen (seen l : list string) : list string :=
  match l with
  | [] => []
  | x :: l' =>
      if bool_decide (x ∈ seen) then first_seen seen l'
      else x :: first_seen (x :: seen) l'
  end.

(** The rule table as the specification words it: every matching group
    contributes its id, a non-empty cart or list of liked products
    contributes "recommendation", a non-empty result contributes "loyalty";
    the agent set is the union in first-seen order. *)
Definition contributions (request : string) (cart_or_liked : bool) : list string :=
  let matched :=
    flat_map (fun g => if any_in g.2 request then [g.1] else []) keyword_groups in
  let forced := matched ++ (if cart_or_liked then ["recommendation"] else []) in
  forced ++ match forced with [] => [] | _ => ["loyalty"] end.

Definition classify_spec (request : string) (cart_or_liked : bool) : list string :=
  first_seen [] (contributions request cart_or_liked).

(** [select_agents] as a function of the six group matches. *)
Definition pick_agents (rec inv pay ful loy sup cart_or_liked : bool) : list string :=
  let a := [] in
  let a := append_if rec "recommendation" a in
  let a := append_if inv "inventory" a in
  let a := append_if pay "payment" a in
  let a := append_if ful "fulfillment" a in
  let a := append_if loy "loyalty" a in
  let a := append_if sup "support" a in
  let a := if cart_or_liked
           then append_if (negb (bool_decide ("recommendation" ∈ a))) "recommendation" a
           else a in
  append_if (negb (bool_decide ("loyalty" ∈ a)) && bool_decide (0 < length a)%nat)
            "loyalty" a.

Lemma select_agents_pick (request : string) (cart_or_liked : bool) :
  select_agents request cart_or_liked =
  pick_agents (any_in recommendation_words request) (any_in inventory_words request)
    (any_in payment_words request) (any_in fulfillment_words request)
    (any_in loyalty_words request) (any_in support_words request) cart_or_liked.
Proof. reflexivity. Qed.

(** [contributions] as a function of the six group matches. *)
Definition pick_contributions (rec inv pay ful loy sup cart_or_liked : bool)
  : list string :=
  let matched :=
    (if rec then ["recommendation"] else []) ++ (if inv then ["inventory"] else [])
    ++ (if pay then ["payment"] else []) ++ (if ful then ["fulfillment"] else [])
    ++ (if loy then ["loyalty"] else []) ++ (if sup then ["support"] else []) in
  let forced := matched ++ (if cart_or_liked then ["recommendation"] else []) in
  forced ++ match forced with [] => [] | _ => ["loyalty"] end.

Lemma contributions_pick (request : string) (cart_or_liked : bool) :
  contributions request cart_or_liked =
  pick_contributions (any_in recommendation_words request)
    (any_in inventory_words request) (any_in payment_words request)
    (any_in fulfillment_words request) (any_in loyalty_words request)
    (any_in support_words request) cart_or_liked.
Proof.
  unfold contributions, pick_contributions, keyword_groups.
  cbn [flat_map fst snd]. by rewrite app_nil_r.
Qed.

Ltac all_cases :=
  intros rec inv pay ful loy sup col;
  destruct rec, inv, pay, ful, loy, sup, col.

Lemma pick_agents_spec :
  ∀ rec inv pay ful loy sup col,
    pick_agents rec inv pay ful loy sup col
    = first_seen [] (pick_contributions rec inv pay ful loy sup col).
Proof. all_cases; reflexivity. Qed.

Lemma pick_agents_NoDup :
  ∀ rec inv pay ful loy sup col, NoDup (pick_agents rec inv pay ful loy sup col).
Proof. all_cases; apply (bool_decide_unpack _); vm_compute; exact I. Qed.

Lemma pick_agents_matched :
  ∀ rec inv pay ful loy sup col,
    let agents := pick_agents rec inv pay ful loy sup col in
    (rec = true → "recommendation" ∈ agents) ∧
    (inv = true → "inventory" ∈ agents) ∧
    (pay = true → "payment" ∈ agents) ∧
    (ful = true → "fulfillment" ∈ agents) ∧
    (loy = true → "loyalty" ∈ agents) ∧
    (sup = true → "support" ∈ agents) ∧
    (col = true → "recommendation" ∈ agents) ∧
    (agents ≠ [] → "loyalty" ∈ agents).
Proof. all_cases; cbv zeta; apply (bool_decide_unpack _); vm_compute; exact I. Qed.

Lemma select_agents_spec (request : string) (cart_or_liked : bool) :
  select_agents request cart_or_liked = classify_spec request cart_or_liked.
Proof.
  unfold classify_spec.
  rewrite select_agents_pick, contributions_pick. apply pick_agents_spec.
Qed.

Lemma select_agents_NoDup (request : string) (cart_or_liked : bool) :
  NoDup (select_agents request cart_or_liked).
Proof. rewrite select_agents_pick. apply pick_agents_NoDup. Qed.

Lemma select_agents_matched (request : string) (cart_or_liked : bool)
  (g : string * list string) :
  g ∈ keyword_groups → any_in g.2 request = true →
  g.1 ∈ select_agents request cart_or_liked.
Proof.
  intros Hg Hm. rewrite select_agents_pick.
  pose proof (pick_agents_matched (any_in recommendation_words request)
    (any_in inventory_words request) (any_in payment_words request)
    (any_in fulfillment_words request) (any_in loyalty_words request)
    (any_in support_words request) cart_or_liked)
    as (H1 & H2 & H3 & H4 & H5 & H6 & _).
  unfold keyword_groups in Hg.
  repeat (apply elem_of_cons in Hg as [->|Hg]); [..|by apply elem_of_nil in Hg];
    cbn [fst snd] in *; auto.
Qed.

Lemma select_agents_loyalty (request : string) (cart_or_liked : bool) :
  select_agents request cart_or_liked ≠ [] →
  "loyalty" ∈ select_agents request cart_or_liked.
Proof. rewrite select_agents_pick. apply pick_agents_matched. Qed.

Lemma select_agents_recommendation (request : string) :
  "recommendation" ∈ select_agents request true.
Proof. rewrite select_agents_pick. by apply pick_agents_matched. Qed.

Lemma select_agents_empty (request : string) (cart_or_liked : bool) :
  select_agents request cart_or_liked = [] ↔
  cart_or_liked = false ∧ ∀ g, g ∈ keyword_groups → any_in g.2 request = false.
Proof.
  split.
  - intros He. split.
    + destruct cart_or_liked; [|done].
      pose proof (select_agents_recommendation request) as Hr.
      rewrite He in Hr. by apply elem_of_nil in Hr.
    + intros g Hg. destruct (any_in g.2 request) eqn:Hm; [|done].
      pose proof (select_agents_matched request cart_or_liked g Hg Hm) as Hr.
      rewrite He in Hr. by apply elem_of_nil in Hr.
  - intros [-> Hall]. unfold select_agents, append_if.
    assert (∀ id ws, (id, ws) ∈ keyword_groups → any_in ws request = false) as Hws
      by (intros id ws Hg; exact (Hall _ Hg)).
    rewrite (Hws "recommendation" recommendation_words),
      (Hws "inventory" inventory_words), (Hws "payment" payment_words),
      (Hws "fulfillment" fulfillment_words), (Hws "loyalty" loyalty_words),
      (Hws "support" support_words); [done|..];
      unfold keyword_groups; set_solver.
Qed.

(** What [orchestrator_node] does to a state that holds a request text and an
    audit log. *)
Lemma orchestrator_node_runs (st : dict) (req : string) (calls : list pyval) :
  dget "current_request" st = Some (PStr req) →
  dget "agent_calls" st = Some (PList calls) →
  let agents :=
    select_agents (str_lower req)
      (truthy_opt (dget "cart" st) || truthy_opt (dget "liked_products" st)) in
  orchestrator_node st =
    (dset "agent_calls"
       (PList (calls ++ [PDict [("agent", PStr "orchestrator");
                                ("action", PStr "analyzed_request");
                                ("agents_to_call", PList (map PStr agents))]]))
       (dset "agents_needed" (PList (map PStr agents)) st),
     Ok tt).
Proof.
  intros Hreq Hcalls agents.
  unfold orchestrator_node, mbind, M_bind, get_item. rewrite Hreq.
  unfold get_state, set_item, append_agent_call.
  rewrite dget_dset_ne, Hcalls; done.
Qed.

(** C4.  For a request that matches at least one of the six keyword groups
    (substring match on the lower-cased text), [orchestrator_node] stores an
    agent list that contains the id of every matched group, contains
    "loyalty", contains "recommendation" whenever the cart or the liked
    products are non-empty, has no duplicates, and lists the ids in
    first-seen order of the rule table. *)
Theorem classifier_agent_set (st : dict) (req : string) (calls : list pyval) :
  dget "current_request" st = Some (PStr req) →
  dget "agent_calls" st = Some (PList calls) →
  (∃ g, g ∈ keyword_groups ∧ any_in g.2 (str_lower req) = true) →
  let cart_or_liked :=
    truthy_opt (dget "cart" st) || truthy_opt (dget "liked_products" st) in
  ∃ st' agents,
    orchestrator_node st = (st', Ok tt) ∧
    dget "agents_needed" st' = Some (PList (map PStr agents)) ∧
    (∀ g, g ∈ keyword_groups → any_in g.2 (str_lower req) = true → g.1 ∈ agents) ∧
    "loyalty" ∈ agents ∧
    (cart_or_liked = true → "recommendation" ∈ agents) ∧
    NoDup agents ∧
    agents = classify_spec (str_lower req) cart_or_liked.
Proof.
  intros Hreq Hcalls (g & Hg & Hm) col.
  eexists _, (select_agents (str_lower req) col). split.
  { by apply orchestrator_node_runs. }
  split.
  { rewrite dget_dset_ne by done. apply dget_dset_eq. }
  split; [intros; by apply select_agents_matched|].
  split.
  { apply select_agents_loyalty. intros He.
    apply select_agents_empty in He as [_ He]. rewrite (He g Hg) in Hm. done. }
  split; [intros ->; apply select_agents_recommendation|].
  split; [apply select_agents_NoDup | apply select_agents_spec].
Qed.

(** ** The payment failover protocol *)

(** What [retry_history] gains from attempting [gs] in list order, the first
    of them being attempt number [n] of the invocation. *)
Definition attempt_entries (n : nat) (gs : list gateway) : list pyval :=
  imap (fun i g => retry_entry (n + i) g (attempt_succeeds (n + i) g)) gs.

Lemma attempt_entries_cons (n : nat) (g : gateway) (gs : list gateway) :
  attempt_entries n (g :: gs) =
  retry_entry n g (attempt_succeeds n g) :: attempt_entries (S n) gs.
Proof.
  unfold attempt_entries. rewrite imap_cons, Nat.add_0_r. f_equal.
  apply imap_ext. intros i x _. simpl. by rewrite Nat.add_succ_r.
Qed.


(** The outcome of the loop in terms of the number [m] of attempts made. *)
Lemma retry_loop_run (gateways : list gateway) (amount : pyval)
  (remaining : list gateway) (hist : list pyval) :
  ∃ (m : nat) (d : dict),
    (m ≤ length remaining)%nat ∧
    coro_outcome (retry_loop gateways amount remaining hist) = Returned (PDict d) ∧
    coro_sleeps (retry_loop gateways amount remaining hist)
      = map g_timeout (take m remaining) ∧
    dget "retry_history" d
      = Some (PList (hist ++ attempt_entries (length hist) (take m remaining))) ∧
    dget "amount" d = Some amount ∧
    (∀ i g, (S i < m)%nat → remaining !! i = Some g →
            attempt_succeeds (length hist + i) g = false) ∧
    ((∃ i g, m = S i ∧ remaining !! i = Some g ∧
             attempt_succeeds (length hist + i) g = true ∧
             dget "success" d = Some (PBool true) ∧
             dget "status" d = Some (PStr "completed") ∧
             dget "gateway" d = Some (PStr (g_name g)))
     ∨ (m = length remaining ∧
        (∀ i g, remaining !! i = Some g →
                attempt_succeeds (length hist + i) g = false) ∧
        dget "success" d = Some (PBool false) ∧
        dget "status" d = Some (PStr "failed"))).
Proof.
  revert hist. induction remaining as [|g rest IH]; intros hist.
  - exists 0%nat. eexists. simpl. split; [lia|]. split; [reflexivity|].
    split; [done|]. split; [by rewrite app_nil_r|]. split; [done|].
    split; [intros; lia|]. right. by repeat split.
  - simpl. destruct (attempt_succeeds (length hist) g) eqn:Hs.
    + exists 1%nat. eexists. simpl. split; [lia|]. split; [reflexivity|].
      split; [by rewrite ?take_0|]. split.
      { simpl. rewrite ?take_0, attempt_entries_cons, Hs. done. }
      split; [done|]. split; [intros; lia|]. left.
      exists 0%nat, g. rewrite Nat.add_0_r. by repeat split.
    + destruct (IH (hist ++ [retry_entry (length hist) g false]))
        as (m & d & Hm & Hout & Hsl & Hh & Ha & Hfail & Hend).
      rewrite length_app in Hh, Hfail, Hend. simpl in Hh, Hfail, Hend.
      rewrite Nat.add_1_r in Hh, Hfail, Hend. simpl in Hfail, Hend.
      exists (S m), d. split; [simpl; lia|]. split; [done|].
      split; [simpl; by rewrite Hsl|]. split.
      { rewrite Hh. simpl. rewrite attempt_entries_cons, Hs.
        by rewrite <- app_assoc. }
      split; [done|]. split.
      { intros [|i] g' Hi Hg'; simpl in Hg'.
        - injection Hg' as <-. by rewrite Nat.add_0_r.
        - rewrite Nat.add_succ_r. apply Hfail; [lia|done]. }
      destruct Hend as [(i & g' & -> & Hg' & Hok & Hd)|(-> & Hall & Hd)].
      * left. exists (S i), g'. rewrite Nat.add_succ_r.
        destruct Hd as (? & ? & ?). by repeat split.
      * right. destruct Hd as (? & ?). split; [done|]. split; [|done].
        intros [|i] g' Hg'; simpl in Hg'.
        -- injection Hg' as <-. by rewrite Nat.add_0_r.
        -- rewrite Nat.add_succ_r. by apply Hall.
Qed.


(** A draw of [random.random()]: a float of the interval [0, 1). *)
Definition unit_interval (r : float) : Prop :=
  PrimFloat.leb 0 r = true ∧ PrimFloat.ltb r 1 = true.

(** C10.  With the configured gateways, whose last one, "UPI Direct", has
    success rate 1.0, every attempt on the last gateway succeeds as long as
    the draws lie in [0, 1); so [_process_payment_with_retry] returns a result
    with success = True and at most three history entries, and never the
    result of the all-gateways-failed branch. *)
Theorem configured_gateways_never_all_fail (amount : pyval) :
  (∀ n, unit_interval (random_random n)) →
  (∀ n g, last configured_gateways = Some g → attempt_succeeds n g = true) ∧
  ∃ (d : dict) (history : list pyval),
    coro_outcome (_process_payment_with_retry configured_gateways amount)
      = Returned (PDict d) ∧
    dget "success" d = Some (PBool true) ∧
    dget "retry_history" d = Some (PList history) ∧
    (1 ≤ length history ≤ 3)%nat ∧
    dget "status" d = Some (PStr "completed") ∧
    dget "message" d
      ≠ Some (PStr "All payment methods failed. Please try again later.").
Proof.
  intros Hdraw.
  assert (∀ n g, last configured_gateways = Some g → attempt_succeeds n g = true)
    as Hlast.
  { intros n g [= <-]. unfold attempt_succeeds. simpl. apply Hdraw. }
  split; [done|].
  unfold _process_payment_with_retry, configured_gateways. simpl.
  destruct (attempt_succeeds 0 _) eqn:H0; simpl.
  { eexists _, _. split; [reflexivity|]. simpl. repeat split; try done; simpl; lia. }
  destruct (attempt_succeeds 1 _) eqn:H1; simpl.
  { eexists _, _. split; [reflexivity|]. simpl. repeat split; try done; simpl; lia. }
  rewrite (Hlast 2%nat) by done. simpl.
  eexists _, _. split; [reflexivity|]. simpl. repeat split; try done; simpl; lia.
Qed.

(** ** What the agents read of the state *)

Lemma view_of_state_dset (k : string) (x : pyval) (st : dict) :
  k ∉ ["current_request"; "cart"; "liked_products"; "location"; "customer_id"] →
  view_of_state (dset k x st) = view_of_state st.
Proof.
  intros Hk.
  assert (∀ k', k' ∈ ["current_request"; "cart"; "liked_products"; "location";
                      "customer_id"] → dget k' (dset k x st) = dget k' st) as Hget.
  { intros k' Hin. apply dget_dset_ne. by intros ->. }
  unfold view_of_state, get_str, get_list.
  rewrite !Hget by set_solver. done.
Qed.


Lemma view_after_orchestrator (st st' : dict) (r : result unit) :
  orchestrator_node st = (st', r) → view_of_state st' = view_of_state st.
Proof.
  unfold orchestrator_node, mbind, M_bind, get_item, raise.
  destruct (dget "current_request" st) as [[]|];
    try (intros Heq; by injection Heq as <- <-).
  unfold get_state, set_item, append_agent_call.
  destruct (dget "agent_calls" _) as [[]|]; intros Heq; injection Heq as <- <-;
    rewrite ?view_of_state_dset; try done; by apply (bool_decide_unpack _).
Qed.

(** C9.  A request whose lower-cased text contains "buy" but none of "pay",
    "checkout" and "purchase" makes the classifier select the payment agent,
    and the payment agent then returns the pending result without sleeping
    on any gateway: the failover protocol does not run and the result has no
    retry_history. *)
Theorem buy_request_stays_pending (st : dict) (v : view) (calls : list pyval) :
  view_of_state st = Some v →
  dget "current_request" st = Some (PStr (v_request v)) →
  dget "agent_calls" st = Some (PList calls) →
  str_contains "buy" (str_lower (v_request v)) = true →
  str_contains "pay" (str_lower (v_request v)) = false →
  str_contains "checkout" (str_lower (v_request v)) = false →
  str_contains "purchase" (str_lower (v_request v)) = false →
  ∃ (st' : dict) (agents : list string) (d : dict),
    orchestrator_node st = (st', Ok tt) ∧
    dget "agents_needed" st' = Some (PList (map PStr agents)) ∧
    "payment" ∈ agents ∧
    execute payment_agent st' = Finish (Returned (PDict d)) ∧
    d = [("status", PStr "pending");
         ("amount", _calculate_total (v_cart v));
         ("message", PStr "Ready to process payment")] ∧
    coro_sleeps (execute payment_agent st') = [] ∧
    dget "retry_history" d = None.
Proof.
  intros Hv Hreq Hcalls Hbuy Hpay Hcheckout Hpurchase.
  pose proof (orchestrator_node_runs st _ calls Hreq Hcalls) as Hrun.
  simpl in Hrun.
  eexists _, _, _. split; [exact Hrun|].
  split. { rewrite dget_dset_ne by done. apply dget_dset_eq. }
  split.
  { apply (select_agents_matched _ _ ("payment", payment_words));
      [unfold keyword_groups; set_solver|].
    unfold any_in, payment_words. simpl. rewrite Hbuy.
    by rewrite !orb_true_r. }
  assert (execute payment_agent (orchestrator_node st).1
          = Finish (Returned (PDict
              [("status", PStr "pending");
               ("amount", _calculate_total (v_cart v));
               ("message", PStr "Ready to process payment")]))) as Hex.
  { simpl. unfold on_view.
    rewrite (view_after_orchestrator st _ _ (surjective_pairing _)), Hv.
    unfold payment_execute, payment_execute_with.
    by rewrite Hpay, Hcheckout, Hpurchase. }
  rewrite Hrun in Hex. simpl in Hex.
  split; [exact Hex|]. split; [done|]. split; [|done].
  simpl. simpl in Hex. by rewrite Hex.
Qed.

(** ** The response synthesizer *)

Lemma when_slot_empty (k : string) (section : pyval → result (list string))
  (st : dict) :
  truthy_opt (dget k st) = false → when_slot k section st = Ok [].
Proof. unfold when_slot, truthy_opt. destruct (dget k st); [intros ->|]; done. Qed.


(** ** Frame reasoning on the state monad *)

(** [m] leaves the keys [K] of the state as they are, whether it returns or
    raises, and what it returns satisfies [Q]. *)
Definition keeps (K : list string) {A} (Q : A → Prop) (m : M A) : Prop :=
  ∀ st,
    (∀ k, k ∈ K → dget k (m st).1 = dget k st) ∧
    match (m st).2 with Ok a => Q a | Err _ => True end.

Lemma keeps_ret (K : list string) {A} (Q : A → Prop) (a : A) :
  Q a → keeps K Q (mret a).
Proof. intros Ha st. by split. Qed.

Lemma keeps_raise (K : list string) {A} (Q : A → Prop) (e : exn) :
  keeps K Q (raise e).
Proof. intros st. by split. Qed.

Lemma keeps_lift (K : list string) {A} (Q : A → Prop) (r : result A) :
  (∀ a, r = Ok a → Q a) → keeps K Q (lift r).
Proof. intros Hr st. split; [done|]. simpl. destruct r; auto. Qed.

Lemma keeps_get_state (K : list string) :
  keeps K (λ _, True) get_state.
Proof. intros st. by split. Qed.

Lemma keeps_bind (K : list string) {A B} (P : A → Prop) (Q : B → Prop)
  (m : M A) (f : A → M B) :
  keeps K P m → (∀ a, P a → keeps K Q (f a)) → keeps K Q (m ≫= f).
Proof.
  intros Hm Hf st. unfold mbind, M_bind.
  destruct (Hm st) as [Hk Ha]. destruct (m st) as [st' [a|e]]; simpl in *.
  - destruct (Hf a Ha st') as [Hk' Hb]. split; [|done].
    intros k Hin. rewrite Hk', Hk; done.
  - by split.
Qed.

Lemma keeps_weaken (K : list string) {A} (P Q : A → Prop) (m : M A) :
  keeps K P m → (∀ a, P a → Q a) → keeps K Q m.
Proof.
  intros Hm HPQ st. destruct (Hm st) as [Hk Ha]. split; [done|].
  destruct ((m st).2); auto.
Qed.

Lemma keeps_mapM (K : list string) {A B} (P : A → Prop) (Q : B → Prop)
  (f : A → M B) (l : list A) :
  (∀ x, P x → keeps K Q (f x)) → Forall P l → keeps K (Forall Q) (mapM f l).
Proof.
  intros Hf. induction 1 as [|x l Hx Hl IH]; simpl.
  - by apply keeps_ret.
  - eapply keeps_bind; [by apply Hf|]. intros y Hy.
    eapply keeps_bind; [exact IH|]. intros ys Hys.
    apply keeps_ret. by constructor.
Qed.

Lemma keeps_set_item (K : list string) (k : string) (v : pyval) :
  k ∉ K → keeps K (λ _, True) (set_item k v).
Proof.
  intros Hk st. split; [|done]. intros k' Hin. simpl.
  apply dget_dset_ne. by intros ->.
Qed.

Lemma keeps_append_agent_call (K : list string) (entry : dict) :
  "agent_calls" ∉ K → keeps K (λ _, True) (append_agent_call entry).
Proof.
  intros Hk st. unfold append_agent_call.
  destruct (dget "agent_calls" st) as [[]|]; (split; [|done]); try done.
  intros k' Hin. simpl. apply dget_dset_ne. by intros ->.
Qed.

Lemma keeps_update_last_call (K : list string) (fields : dict) :
  "agent_calls" ∉ K → keeps K (λ _, True) (update_last_call fields).
Proof.
  intros Hk st. unfold update_last_call.
  destruct (dget "agent_calls" st) as [[| | | | |calls|]|]; try by split.
  destruct (last calls) as [[]|]; (split; [|done]); try done.
  intros k' Hin. simpl. apply dget_dset_ne. by intros ->.
Qed.

(** ** What a result can write into the state *)

(** The keys [state.update(l)] assigns for a list [l]. *)
Fixpoint seq_written (l : list pyval) : list string :=
  match l with
  | PDict [(k1, _); (k2, _)] :: rest => k1 :: seq_written rest
  | _ => []
  end.

(** The keys [state.update(r)] assigns. *)
Definition written_keys (r : pyval) : list string :=
  match r with
  | PDict d => keys d
  | PList l => seq_written l
  | _ => []
  end.

Lemma update_from_seq_frame (k : string) (l : list pyval) (i : nat) (st : dict) :
  k ∉ seq_written l → dget k (update_from_seq i l st).1 = dget k st.
Proof.
  revert i st. induction l as [|x l IH]; intros i st Hk; [done|].
  destruct x as [| | | | | |d]; try done.
  destruct d as [|[k1 v1] [|[k2 v2] [|? ?]]]; try done.
  simpl in Hk. apply not_elem_of_cons in Hk as [Hne Hk].
  cbn [update_from_seq]. unfold mbind, M_bind, set_item.
  rewrite IH by done. by apply dget_dset_ne.
Qed.

Lemma state_update_frame (k : string) (r : pyval) (st : dict) :
  k ∉ written_keys r → dget k (state_update r st).1 = dget k st.
Proof.
  destruct r; try done; simpl; intros Hk.
  - by apply update_from_seq_frame.
  - by apply dget_dupdate_notin.
Qed.

Lemma keeps_merge_results (K : list string) (results : list pyval) :
  Forall (λ r, ∀ k, k ∈ K → k ∉ written_keys r) results →
  keeps K (λ _, True) (merge_results results).
Proof.
  induction 1 as [|r rs Hr Hrs IH]; simpl.
  - by apply keeps_ret.
  - eapply keeps_bind; [|intros; exact IH].
    instantiate (1 := λ _, True).
    destruct (truthy r); [|by apply keeps_ret].
    intros st. split.
    + intros k Hin. apply state_update_frame. by apply Hr.
    + by destruct ((state_update r st).2).
Qed.

(** ** The dispatcher writes only what the agents return *)

Definition avoids (K : list string) (r : pyval) : Prop :=
  ∀ k, k ∈ K → k ∉ written_keys r.

Definition outcome_avoids (K : list string) (o : outcome) : Prop :=
  match o with
  | Returned r => avoids K r
  | Raised _ => True
  end.

(** An agent none of whose results has a key of [K]. *)
Definition agent_avoids (K : list string) (a : agent) : Prop :=
  ∀ st, outcome_avoids K (coro_outcome (execute a st)).

Definition task_avoids (K : list string) (t : task_state) : Prop :=
  match t with
  | Completed r => avoids K r
  | Suspended c => outcome_avoids K (coro_outcome c)
  end.

Lemma keeps_run_begin (F K : list string) (a : agent) :
  "agent_calls" ∉ F → agent_avoids K a →
  keeps F (λ c, outcome_avoids K (coro_outcome c)) (run_begin a).
Proof.
  intros HK Ha. unfold run_begin.
  eapply keeps_bind; [by apply keeps_append_agent_call|]. intros _ _.
  eapply keeps_bind; [apply keeps_get_state|]. intros st _.
  apply keeps_ret, Ha.
Qed.

Lemma keeps_run_end (F K : list string) (a : agent) (o : outcome) :
  "agent_calls" ∉ F → outcome_avoids K o → keeps F (avoids K) (run_end a o).
Proof.
  intros HK Ho. destruct o as [r|e]; simpl.
  - eapply keeps_bind; [by apply keeps_update_last_call|]. intros _ _.
    by apply keeps_ret.
  - eapply keeps_bind; [by apply keeps_update_last_call|]. intros _ _.
    apply keeps_ret. intros k _. apply not_elem_of_nil.
Qed.

Lemma keeps_task_start (F K : list string) (a : agent) :
  "agent_calls" ∉ F → agent_avoids K a →
  keeps F (task_avoids K) (task_start a).
Proof.
  intros HK Ha. unfold task_start.
  eapply keeps_bind; [by apply keeps_run_begin|].
  intros [o|d c] Hc; simpl in Hc.
  - eapply keeps_bind; [by apply keeps_run_end|]. intros r Hr.
    by apply keeps_ret.
  - by apply keeps_ret.
Qed.

Lemma keeps_task_resume (F K : list string) (t : agent * task_state) :
  "agent_calls" ∉ F → task_avoids K t.2 → keeps F (avoids K) (task_resume t).
Proof.
  intros HK Ht. unfold task_resume. destruct (t.2) as [r|c]; simpl in Ht.
  - by apply keeps_ret.
  - by apply keeps_run_end.
Qed.

Lemma Forall_zip_snd {A B} (P : B → Prop) (l1 : list A) (l2 : list B) :
  Forall P l2 → Forall (λ p, P p.2) (zip l1 l2).
Proof.
  intros H. revert l1. induction H as [|y l2 Hy Hl IH]; intros [|x l1];
    simpl; constructor; auto.
Qed.

Lemma keeps_gather (F K : list string) (tasks : list agent) :
  "agent_calls" ∉ F → Forall (agent_avoids K) tasks →
  keeps F (Forall (avoids K)) (gather tasks).
Proof.
  intros HK Htasks. unfold gather.
  eapply keeps_bind.
  { eapply keeps_mapM; [|exact Htasks]. intros a Ha. by apply keeps_task_start. }
  intros started Hstarted.
  eapply keeps_mapM; [|apply Forall_zip_snd, Hstarted].
  intros t Ht. by apply keeps_task_resume.
Qed.

Lemma build_tasks_Forall (P : agent → Prop) (registry : list (string * agent))
  (agents_needed : pyval) (tasks : list agent) :
  Forall (λ na, P na.2) registry →
  build_tasks registry agents_needed = Ok tasks → Forall P tasks.
Proof.
  intros Hreg. revert tasks.
  induction Hreg as [|[name a] rest Ha Hrest IH]; intros tasks; simpl.
  - by intros [= <-].
  - unfold mbind, result_bind.
    destruct (py_in name agents_needed) as [b|]; [|done].
    destruct (build_tasks rest agents_needed) as [ts|]; [|done].
    intros [= <-]. destruct b; [constructor|]; auto.
Qed.

(** Keys that no dispatched agent returns keep their value over
    [call_agents_node], also when the node raises. *)
Lemma keeps_call_agents_node (K : list string) (registry : list (string * agent)) :
  "agent_calls" ∉ K → Forall (λ na, agent_avoids K na.2) registry →
  keeps K (λ _, True) (call_agents_node_with registry).
Proof.
  intros HK Hreg. unfold call_agents_node_with.
  eapply keeps_bind; [apply keeps_get_state|]. intros st _.
  eapply keeps_bind.
  { apply (keeps_lift K (Forall (agent_avoids K))). intros tasks.
    by apply build_tasks_Forall. }
  intros [|a tasks] Htasks; [by apply keeps_ret|].
  eapply keeps_bind; [by apply keeps_gather|].
  intros results Hres. by apply keeps_merge_results.
Qed.

(** ** The keys the registered agents return *)

(** The per-agent result slots other than [recommendations]. *)
Definition unassigned_slots : list string :=
  ["inventory_status"; "payment_status"; "fulfillment_info"; "loyalty_info";
   "support_info"].

(** The keys of [AgentState] other than [recommendations]. *)
Definition reserved_keys : list string :=
  ["session_id"; "customer_id"; "channel"; "current_request"; "messages";
   "intent"; "liked_products"; "cart"; "location"; "agent_calls";
   "agents_needed"; "inventory_status"; "payment_status"; "fulfillment_info";
   "loyalty_info"; "support_info"; "response"; "next_action"; "error"].

Lemma agent_avoids_mono (K K' : list string) (a : agent) :
  K' ⊆ K → agent_avoids K a → agent_avoids K' a.
Proof.
  intros Hsub Ha st. specialize (Ha st).
  destruct (coro_outcome (execute a st)); [|done].
  intros k Hk. by apply Ha, Hsub.
Qed.

Ltac avoid_keys :=
  intros ? Hslot; unfold reserved_keys in Hslot;
  repeat (apply elem_of_cons in Hslot as [->|Hslot]);
  [..|by apply elem_of_nil in Hslot];
  by apply (bool_decide_unpack _).

Lemma on_view_avoids (K : list string) (name : string) (f : view → coro) :
  (∀ v, outcome_avoids K (coro_outcome (f v))) →
  agent_avoids K {| agent_name := name; execute := on_view f |}.
Proof.
  intros Hf st. simpl. unfold on_view.
  destruct (view_of_state st); [apply Hf|done].
Qed.

Lemma recommendation_avoids : agent_avoids reserved_keys recommendation_agent.
Proof. apply on_view_avoids. intros v. simpl. avoid_keys. Qed.

Lemma check_stock_avoids (product_id : string) (size : option string)
  (location : string) :
  avoids reserved_keys (PDict (_check_stock product_id size location)).
Proof.
  unfold _check_stock. case_decide; [avoid_keys|].
  destruct (_ || _); avoid_keys.
Qed.

Lemma find_nearby_stores_avoids (location : string) :
  avoids reserved_keys (PList (_find_nearby_stores location)).
Proof.
  unfold _find_nearby_stores, avoids. simpl.
  destruct inventory_stores; simpl; intros; apply not_elem_of_nil.
Qed.

Lemma inventory_avoids : agent_avoids reserved_keys inventory_agent.
Proof.
  apply on_view_avoids; intros v. simpl.
  destruct (_ || _).
  { destruct (v_cart v); apply check_stock_avoids. }
  destruct (_ || _); [apply find_nearby_stores_avoids|].
  destruct (v_cart v); avoid_keys.
Qed.

Lemma retry_loop_avoids (gateways : list gateway) (amount : pyval)
  (remaining : list gateway) (hist : list pyval) :
  outcome_avoids reserved_keys
    (coro_outcome (retry_loop gateways amount remaining hist)).
Proof.
  revert hist. induction remaining as [|g rest IH]; intros hist; simpl.
  - avoid_keys.
  - destruct (attempt_succeeds _ g); [simpl; avoid_keys|apply IH].
Qed.

Lemma payment_avoids : agent_avoids reserved_keys payment_agent.
Proof.
  apply on_view_avoids; intros v.
  unfold payment_execute, payment_execute_with.
  destruct (_ || _); [apply retry_loop_avoids|simpl; avoid_keys].
Qed.

Lemma fulfillment_avoids : agent_avoids reserved_keys fulfillment_agent.
Proof.
  apply on_view_avoids; intros v. simpl. destruct (v_cart v); avoid_keys.
Qed.

Lemma loyalty_result_keys (v : view) (r : pyval) :
  loyalty_result v = Ok r →
  ∃ d, r = PDict d ∧
       keys d = ["status"; "points_available"; "points_value"; "offers";
                 "discount_amount"; "original_price"; "final_price";
                 "savings"; "message"].
Proof.
  unfold loyalty_result, mbind, result_bind.
  repeat case_match; intros; simplify_eq; eauto.
Qed.

Lemma loyalty_avoids : agent_avoids reserved_keys loyalty_agent.
Proof.
  apply on_view_avoids; intros v. simpl.
  destruct (loyalty_result v) as [r|e] eqn:Hr; [|done]. simpl.
  apply loyalty_result_keys in Hr as (d & -> & Hd).
  unfold avoids. simpl. rewrite Hd. avoid_keys.
Qed.

Lemma support_avoids : agent_avoids reserved_keys support_agent.
Proof.
  apply on_view_avoids; intros v. simpl.
  repeat (destruct (_ || _); [avoid_keys|]). avoid_keys.
Qed.

Lemma registered_agents_reserved :
  Forall (λ na, agent_avoids reserved_keys na.2) registered_agents.
Proof.
  unfold registered_agents. repeat constructor; simpl.
  - apply recommendation_avoids.
  - apply inventory_avoids.
  - apply payment_avoids.
  - apply fulfillment_avoids.
  - apply loyalty_avoids.
  - apply support_avoids.
Qed.

Lemma registered_agents_avoid :
  Forall (λ na, agent_avoids unassigned_slots na.2) registered_agents.
Proof.
  eapply Forall_impl; [apply registered_agents_reserved|].
  intros na. apply agent_avoids_mono.
  intros k Hk. unfold unassigned_slots in Hk.
  repeat (apply elem_of_cons in Hk as [->|Hk]);
    [..|by apply elem_of_nil in Hk]; by apply (bool_decide_unpack _).
Qed.

Lemma keeps_get_item (K : list string) (k : string) :
  keeps K (λ _, True) (get_item k).
Proof. intros st. unfold get_item. destruct (dget k st); by split. Qed.

Lemma keeps_orchestrator_node (K : list string) :
  "agent_calls" ∉ K → "agents_needed" ∉ K → keeps K (λ _, True) orchestrator_node.
Proof.
  intros H1 H2. unfold orchestrator_node.
  eapply keeps_bind; [apply keeps_get_item|]. intros r _.
  destruct r; try apply keeps_raise.
  eapply keeps_bind; [apply keeps_get_state|]. intros st _.
  eapply keeps_bind; [by apply keeps_set_item|]. intros _ _.
  by apply keeps_append_agent_call.
Qed.

Lemma keeps_simple_response_node (K : list string) :
  "response" ∉ K → keeps K (λ _, True) simple_response_node.
Proof.
  intros H1. unfold simple_response_node.
  eapply keeps_bind; [apply keeps_get_item|]. intros r _.
  destruct r; try apply keeps_raise. by apply keeps_set_item.
Qed.

Lemma keeps_synthesize_response_node (K : list string) :
  "response" ∉ K → keeps K (λ _, True) synthesize_response_node.
Proof.
  intros H1. unfold synthesize_response_node.
  eapply keeps_bind; [apply keeps_get_state|]. intros st _.
  eapply keeps_bind; [by apply (keeps_lift K (λ _, True))|]. intros parts _.
  by apply keeps_set_item.
Qed.

Lemma keeps_orchestrator_graph (K : list string) :
  "agent_calls" ∉ K → "agents_needed" ∉ K → "response" ∉ K →
  Forall (λ na, agent_avoids K na.2) registered_agents →
  keeps K (λ _, True) orchestrator_graph.
Proof.
  intros H1 H2 H3 Hreg. unfold orchestrator_graph.
  eapply keeps_bind; [by apply keeps_orchestrator_node|]. intros _ _.
  eapply keeps_bind; [apply keeps_get_state|]. intros st _.
  eapply keeps_bind; [|intros; by apply keeps_synthesize_response_node].
  instantiate (1 := λ _, True).
  case_decide; [by apply keeps_call_agents_node|by apply keeps_simple_response_node].
Qed.

(** C8.  No registered agent returns a result with one of the keys
    inventory_status, payment_status, fulfillment_info, loyalty_info or
    support_info, so the dispatcher's merge never assigns these five slots:
    [call_agents_node] leaves each of them as it found it, and a whole run
    started from [create_initial_state] ends with each of them still None. *)
Theorem dispatch_leaves_five_slots :
  Forall (λ na, agent_avoids unassigned_slots na.2) registered_agents ∧
  (∀ st, Forall (λ slot, dget slot (call_agents_node st).1 = dget slot st)
                unassigned_slots) ∧
  (∀ session_id customer_id channel current_request messages liked_products
     cart location,
     Forall (λ slot,
               dget slot (orchestrator_graph
                            (create_initial_state session_id customer_id channel
                               current_request messages liked_products cart
                               location)).1 = Some PNone)
            unassigned_slots).
Proof.
  split; [apply registered_agents_avoid|]. split.
  - intros st. apply Forall_forall. intros slot Hslot.
    by apply (keeps_call_agents_node unassigned_slots registered_agents);
      [by apply (bool_decide_unpack _)|apply registered_agents_avoid|].
  - intros. apply Forall_forall. intros slot Hslot.
    rewrite (proj1 (keeps_orchestrator_graph unassigned_slots
                      ltac:(by apply (bool_decide_unpack _))
                      ltac:(by apply (bool_decide_unpack _))
                      ltac:(by apply (bool_decide_unpack _))
                      registered_agents_avoid _)) by done.
    unfold unassigned_slots in Hslot.
    repeat (apply elem_of_cons in Hslot as [->|Hslot]);
      [..|by apply elem_of_nil in Hslot]; reflexivity.
Qed.

(** ** The audit log *)

(** The two states agree on every key but the log. *)
Definition same_except_log (st st' : dict) : Prop :=
  ∀ k, k ≠ "agent_calls" → dget k st' = dget k st.

Lemma same_except_log_refl (st : dict) : same_except_log st st.
Proof. by intros k _. Qed.

Lemma same_except_log_trans (st1 st2 st3 : dict) :
  same_except_log st1 st2 → same_except_log st2 st3 → same_except_log st1 st3.
Proof. intros H12 H23 k Hk. rewrite H23, H12; done. Qed.

Lemma same_except_log_dset (st : dict) (v : pyval) :
  same_except_log st (dset "agent_calls" v st).
Proof. intros k Hk. by apply dget_dset_ne. Qed.

Lemma same_except_log_view (st st' : dict) :
  same_except_log st st' → view_of_state st' = view_of_state st.
Proof.
  intros Hsame. unfold view_of_state, get_str, get_list.
  rewrite !Hsame; done.
Qed.

(** The entry of an agent once its run has ended with outcome [o]. *)
Definition final_entry (a : agent) (o : outcome) : dict :=
  dupdate (processing_entry a)
          match o with
          | Returned r => success_fields a r
          | Raised e => failed_fields a e
          end.

(** An entry that [a] appended: it carries the agent's name and start
    timestamp, whatever was written into it since. *)
Definition logged (a : agent) (e : pyval) : Prop :=
  ∃ d, e = PDict d ∧
       dget "agent" d = Some (PStr (agent_name a)) ∧
       dget "timestamp" d = Some (PFloat (wall_clock (agent_name a) 1)).

Lemma logged_processing (a : agent) : logged a (PDict (processing_entry a)).
Proof. by eexists. Qed.

Lemma logged_update (a : agent) (d fields : dict) :
  "agent" ∉ keys fields → "timestamp" ∉ keys fields →
  logged a (PDict d) → logged a (PDict (dupdate d fields)).
Proof.
  intros H1 H2 (d' & [= <-] & Ha & Ht). eexists. split; [done|].
  by rewrite !dget_dupdate_notin.
Qed.


Lemma append_agent_call_run (entry : dict) (st : dict) (calls : list pyval) :
  dget "agent_calls" st = Some (PList calls) →
  append_agent_call entry st
    = (dset "agent_calls" (PList (calls ++ [PDict entry])) st, Ok tt).
Proof. intros H. unfold append_agent_call. by rewrite H. Qed.

Lemma update_last_call_run (fields : dict) (st : dict) (calls : list pyval)
  (entry : dict) :
  dget "agent_calls" st = Some (PList (calls ++ [PDict entry])) →
  update_last_call fields st
    = (dset "agent_calls" (PList (calls ++ [PDict (dupdate entry fields)])) st,
       Ok tt).
Proof.
  intros H. unfold update_last_call. rewrite H, last_snoc.
  rewrite length_app, Nat.add_1_r. simpl.
  rewrite insert_app_r_alt by lia. rewrite Nat.sub_diag. done.
Qed.

Lemma dset_dset (k : string) (v w : pyval) (d : dict) :
  dset k w (dset k v d) = dset k w d.
Proof.
  induction d as [|[k' v'] d IH]; simpl.
  - by case_decide.
  - case_decide; simpl; case_decide; try done. by rewrite IH.
Qed.

(** [run_begin] appends the entry with status "processing" and calls
    [_execute] on the state that holds it. *)
Lemma run_begin_run (a : agent) (st : dict) (calls : list pyval) :
  dget "agent_calls" st = Some (PList calls) →
  let st' := dset "agent_calls" (PList (calls ++ [PDict (processing_entry a)])) st in
  run_begin a st = (st', Ok (execute a st')).
Proof.
  intros H. unfold run_begin, mbind, M_bind.
  by rewrite (append_agent_call_run _ _ _ H).
Qed.

(** [run_end] rewrites the entry that is last in the log and returns the
    result, or [{}] on an exception. *)
Lemma run_end_run (a : agent) (o : outcome) (st : dict) (calls : list pyval)
  (entry : dict) :
  dget "agent_calls" st = Some (PList (calls ++ [PDict entry])) →
  run_end a o st
    = (dset "agent_calls"
            (PList (calls ++ [PDict (dupdate entry
                                       match o with
                                       | Returned r => success_fields a r
                                       | Raised e => failed_fields a e
                                       end)]))
            st,
       Ok match o with Returned r => r | Raised _ => PDict [] end).
Proof.
  intros H. destruct o; simpl; unfold mbind, M_bind;
    by rewrite (update_last_call_run _ _ _ _ H).
Qed.

(** A task that does not sleep leaves its finished entry at the end of the
    log. *)
Lemma task_start_finish (a : agent) (st : dict) (calls : list pyval) (o : outcome) :
  dget "agent_calls" st = Some (PList calls) →
  execute a (dset "agent_calls" (PList (calls ++ [PDict (processing_entry a)])) st)
    = Finish o →
  task_start a st
    = (dset "agent_calls" (PList (calls ++ [PDict (final_entry a o)])) st,
       Ok (Completed match o with Returned r => r | Raised _ => PDict [] end)).
Proof.
  intros H Hex. unfold task_start, mbind, M_bind.
  rewrite (run_begin_run _ _ _ H). simpl. rewrite Hex.
  erewrite run_end_run by apply dget_dset_eq.
  by rewrite dset_dset.
Qed.

(** A task that sleeps leaves its entry at "processing". *)
Lemma task_start_sleep (a : agent) (st : dict) (calls : list pyval)
  (delay : float) (k : coro) :
  dget "agent_calls" st = Some (PList calls) →
  execute a (dset "agent_calls" (PList (calls ++ [PDict (processing_entry a)])) st)
    = Sleep delay k →
  task_start a st
    = (dset "agent_calls" (PList (calls ++ [PDict (processing_entry a)])) st,
       Ok (Suspended k)).
Proof.
  intros H Hex. unfold task_start, mbind, M_bind.
  rewrite (run_begin_run _ _ _ H). simpl. by rewrite Hex.
Qed.

Definition is_completed (t : task_state) : Prop :=
  match t with Completed _ => True | Suspended _ => False end.

(** From [st] on, as long as only the log changes, [a] runs without sleeping. *)
Definition sync_from (st : dict) (a : agent) : Prop :=
  ∀ st', same_except_log st st' → ∃ o, execute a st' = Finish o.

(** The entry of an agent whose run has ended: appended as "processing" and
    updated once, to "success" or "failed". *)
Definition finished (a : agent) (e : pyval) : Prop :=
  ∃ o, e = PDict (final_entry a o).

Lemma sync_from_mono (st st' : dict) (a : agent) :
  same_except_log st st' → sync_from st a → sync_from st' a.
Proof.
  intros Hsame Hsync st'' Hsame'. apply Hsync.
  by eapply same_except_log_trans.
Qed.

Lemma logged_final_entry (a : agent) (o : outcome) :
  logged a (PDict (final_entry a o)).
Proof.
  unfold final_entry. apply logged_update; [..|apply logged_processing];
    destruct o; by apply (bool_decide_unpack _).
Qed.

Lemma mapM_cons_run {A B} (f : A → M B) (x : A) (l : list A) (st : dict) :
  mapM f (x :: l) st =
  match f x st with
  | (st1, Ok y) =>
      match mapM f l st1 with
      | (st2, Ok ys) => (st2, Ok (y :: ys))
      | (st2, Err e) => (st2, Err e)
      end
  | (st1, Err e) => (st1, Err e)
  end.
Proof.
  simpl. unfold mbind, M_bind. destruct (f x st) as [st1 [y|e]]; [|done].
  by destruct (mapM f l st1) as [st2 [ys|e]].
Qed.

(** The first pass of [gather]: every task appends its entry, in task order. *)
Lemma start_all_log (tasks : list agent) (st : dict) (calls : list pyval) :
  dget "agent_calls" st = Some (PList calls) →
  ∃ st' started new,
    mapM task_start tasks st = (st', Ok started) ∧
    length started = length tasks ∧
    same_except_log st st' ∧
    dget "agent_calls" st' = Some (PList (calls ++ new)) ∧
    Forall2 logged tasks new ∧
    (Forall (sync_from st) tasks →
     Forall2 finished tasks new ∧ Forall is_completed started).
Proof.
  revert st calls. induction tasks as [|a tasks IH]; intros st calls Hcalls.
  - exists st, [], []. rewrite app_nil_r.
    repeat split; try done; constructor.
  - set (st1 := dset "agent_calls"
                     (PList (calls ++ [PDict (processing_entry a)])) st).
    destruct (execute a st1) as [o|delay k] eqn:Hex.
    + pose proof (task_start_finish a st calls o Hcalls Hex) as Hstart.
      set (st2 := dset "agent_calls" (PList (calls ++ [PDict (final_entry a o)])) st)
        in Hstart.
      destruct (IH st2 (calls ++ [PDict (final_entry a o)]))
        as (st' & started & new & Hrun & Hlen & Hsame & Hlog & Hnew & Hsync).
      { apply dget_dset_eq. }
      exists st', (Completed match o with Returned r => r | Raised _ => PDict [] end
                   :: started), (PDict (final_entry a o) :: new).
      split.
      { by rewrite mapM_cons_run, Hstart, Hrun. }
      split; [simpl; by rewrite Hlen|].
      split.
      { eapply same_except_log_trans; [|exact Hsame]. apply same_except_log_dset. }
      split; [by rewrite Hlog, <- app_assoc|].
      split; [constructor; [apply logged_final_entry|done]|].
      intros Hall. apply Forall_cons in Hall as [Ha Hall].
      destruct Hsync as [Hfin Hcomp].
      { eapply Forall_impl; [exact Hall|]. intros a'.
        apply sync_from_mono, same_except_log_dset. }
      split; constructor; try done. by exists o.
    + pose proof (task_start_sleep a st calls delay k Hcalls Hex) as Hstart.
      fold st1 in Hstart.
      destruct (IH st1 (calls ++ [PDict (processing_entry a)]))
        as (st' & started & new & Hrun & Hlen & Hsame & Hlog & Hnew & Hsync).
      { apply dget_dset_eq. }
      exists st', (Suspended k :: started), (PDict (processing_entry a) :: new).
      split.
      { by rewrite mapM_cons_run, Hstart, Hrun. }
      split; [simpl; by rewrite Hlen|].
      split.
      { eapply same_except_log_trans; [|exact Hsame]. apply same_except_log_dset. }
      split; [by rewrite Hlog, <- app_assoc|].
      split; [constructor; [apply logged_processing|done]|].
      intros Hall. apply Forall_cons in Hall as [Ha _].
      destruct (Ha st1 (same_except_log_dset _ _)) as [o Ho]. congruence.
Qed.

(** The second pass: a task that slept ends, and writes into the entry that
    is last in the log by then. *)
Lemma resume_all_log (tasks : list agent) (pairs : list (agent * task_state))
  (st : dict) (calls new : list pyval) :
  dget "agent_calls" st = Some (PList (calls ++ new)) →
  Forall2 logged tasks new →
  (pairs ≠ [] → tasks ≠ []) →
  ∃ st' results new',
    mapM task_resume pairs st = (st', Ok results) ∧
    length results = length pairs ∧
    same_except_log st st' ∧
    dget "agent_calls" st' = Some (PList (calls ++ new')) ∧
    Forall2 logged tasks new' ∧
    (Forall (λ p, is_completed p.2) pairs → st' = st).
Proof.
  revert st new. induction pairs as [|[a t] pairs IH]; intros st new Hlog Hnew Hne.
  - exists st, [], new. repeat split; done.
  - destruct t as [r|k].
    + destruct (IH st new Hlog Hnew) as (st' & rs & new' & Hrun & Hlen & Hsame & Hlog' & Hnew' & Hid).
      { intros _. by apply Hne. }
      exists st', (r :: rs), new'. split.
      { rewrite mapM_cons_run. unfold task_resume at 1. simpl.
        by rewrite Hrun. }
      split; [simpl; by rewrite Hlen|]. repeat split; try done.
      intros Hall. apply Forall_cons in Hall as [_ Hall]. by apply Hid.
    + assert (tasks ≠ []) as Htasks by by apply Hne.
      assert (new ≠ []) as Hnonempty.
      { intros ->. apply Forall2_nil_inv_r in Hnew. done. }
      destruct (exists_last Hnonempty) as (new0 & e & ->).
      apply Forall2_app_inv_r in Hnew as (tasks0 & tl & Htasks0 & Htl & ->).
      apply Forall2_cons_inv_r in Htl as (a' & tl' & Ha' & Htl' & ->).
      apply Forall2_nil_inv_r in Htl' as ->.
      pose proof Ha' as (d & -> & _).
      rewrite app_assoc in Hlog.
      pose proof (run_end_run a (coro_outcome k) st _ _ Hlog) as Hend.
      set (fields := match coro_outcome k with
                     | Returned r => success_fields a r
                     | Raised e => failed_fields a e
                     end) in Hend.
      set (st1 := dset "agent_calls"
                    (PList ((calls ++ new0) ++ [PDict (dupdate d fields)])) st) in Hend.
      destruct (IH st1 (new0 ++ [PDict (dupdate d fields)]))
        as (st' & rs & new' & Hrun & Hlen & Hsame & Hlog' & Hnew' & _).
      { unfold st1. rewrite dget_dset_eq. by rewrite app_assoc. }
      { apply Forall2_app; [done|]. constructor; [|constructor].
        apply logged_update; [..|done]; unfold fields;
          destruct (coro_outcome k); by apply (bool_decide_unpack _). }
      { done. }
      eexists st', (_ :: rs), new'. split.
      { rewrite mapM_cons_run. unfold task_resume at 1. simpl.
        by rewrite Hend, Hrun. }
      split; [simpl; by rewrite Hlen|].
      split.
      { eapply same_except_log_trans; [|exact Hsame]. apply same_except_log_dset. }
      repeat split; try done.
      intros Hall. apply Forall_cons in Hall as [[] _].
Qed.

Lemma bind_run {A B} (m : M A) (f : A → M B) (st st' : dict) (a : A) :
  m st = (st', Ok a) → (m ≫= f) st = f a st'.
Proof. intros H. unfold mbind, M_bind. by rewrite H. Qed.

(** [gather] on a state that holds a log: one entry per task, in task order,
    after the entries that were there; nothing else of the state changes. *)
Lemma gather_log (tasks : list agent) (st : dict) (calls : list pyval) :
  dget "agent_calls" st = Some (PList calls) →
  ∃ st' results new,
    gather tasks st = (st', Ok results) ∧
    length results = length tasks ∧
    same_except_log st st' ∧
    dget "agent_calls" st' = Some (PList (calls ++ new)) ∧
    Forall2 logged tasks new ∧
    (Forall (sync_from st) tasks → Forall2 finished tasks new).
Proof.
  intros Hcalls.
  destruct (start_all_log tasks st calls Hcalls)
    as (st1 & started & new & Hrun1 & Hlen1 & Hsame1 & Hlog1 & Hnew1 & Hsync1).
  destruct (resume_all_log tasks (zip tasks started) st1 calls new Hlog1 Hnew1)
    as (st2 & results & new' & Hrun2 & Hlen2 & Hsame2 & Hlog2 & Hnew2 & Hid).
  { destruct tasks; [done|]. by intros _. }
  exists st2, results, new'. split.
  { unfold gather. by rewrite (bind_run _ _ _ _ _ Hrun1). }
  split; [rewrite Hlen2, length_zip; lia|].
  split; [by eapply same_except_log_trans|].
  split; [done|]. split; [done|].
  intros Hall. destruct (Hsync1 Hall) as [Hfin Hcomp].
  rewrite (Hid (Forall_zip_snd _ _ _ Hcomp)) in Hlog2.
  rewrite Hlog1 in Hlog2. injection Hlog2 as Heq.
  apply app_inv_head in Heq. by subst.
Qed.

Lemma merge_results_log (results : list pyval) (st : dict) :
  Forall (avoids ["agent_calls"]) results →
  dget "agent_calls" (merge_results results st).1 = dget "agent_calls" st.
Proof.
  intros Hres.
  apply (keeps_merge_results ["agent_calls"] results); [|set_solver].
  done.
Qed.

(** [call_agents_node] on a state that holds a log and a task list. *)
Lemma call_agents_node_log (registry : list (string * agent)) (st : dict)
  (calls : list pyval) (tasks : list agent) :
  Forall (λ na, agent_avoids ["agent_calls"] na.2) registry →
  dget "agent_calls" st = Some (PList calls) →
  build_tasks registry (default (PList []) (dget "agents_needed" st)) = Ok tasks →
  ∃ new,
    dget "agent_calls" (call_agents_node_with registry st).1
      = Some (PList (calls ++ new)) ∧
    Forall2 logged tasks new ∧
    (Forall (sync_from st) tasks → Forall2 finished tasks new).
Proof.
  intros Hreg Hcalls Htasks.
  unfold call_agents_node_with.
  rewrite (bind_run get_state _ st st st eq_refl).
  rewrite (bind_run (lift _) _ st st tasks) by (unfold lift; by rewrite Htasks).
  destruct tasks as [|a tasks].
  { exists []. rewrite app_nil_r. simpl. repeat split; try done; constructor. }
  destruct (gather_log (a :: tasks) st calls Hcalls)
    as (st' & results & new & Hrun & Hlen & Hsame & Hlog & Hnew & Hsync).
  rewrite (bind_run _ _ _ _ _ Hrun). exists new.
  assert (Forall (avoids ["agent_calls"]) results) as Hres.
  { pose proof (keeps_gather [] ["agent_calls"] (a :: tasks)
                  ltac:(apply not_elem_of_nil)
                  (build_tasks_Forall _ _ _ _ Hreg Htasks) st) as [_ Hq].
    by rewrite Hrun in Hq. }
  split; [|done].
  by rewrite merge_results_log.
Qed.

Lemma registered_agents_keep_log :
  Forall (λ na, agent_avoids ["agent_calls"] na.2) registered_agents.
Proof.
  eapply Forall_impl; [apply registered_agents_reserved|].
  intros na. apply agent_avoids_mono.
  intros k ->%list_elem_of_singleton. by apply (bool_decide_unpack _).
Qed.






(** The entry [orchestrator_node] appends for the agent list [agents]. *)
Definition orchestrator_entry (agents : list string) : pyval :=
  PDict [("agent", PStr "orchestrator");
         ("action", PStr "analyzed_request");
         ("agents_to_call", PList (map PStr agents))].

Lemma truthy_agent_list (agents : list string) :
  truthy (PList (map PStr agents)) = bool_decide (agents ≠ []).
Proof. by destruct agents. Qed.


(** ** The no-agent path *)

Lemma canned_replies_differ :
  greeting_reply ≠ greeting_text ∧ greeting_reply ≠ fallback_text ∧
  thanks_reply ≠ greeting_text ∧ thanks_reply ≠ fallback_text ∧
  default_reply ≠ greeting_text ∧ default_reply ≠ fallback_text.
Proof. repeat split; by apply (bool_decide_unpack _). Qed.

(** C2, what the code does.  When the classifier selects no agent, the run
    goes through [simple_response_node], which stores a canned reply, and
    then through [synthesize_response_node], which overwrites it: the
    response of the run is the synthesizer's greeting on an empty
    conversation and its fallback text otherwise, never the canned reply. *)
Theorem no_agent_path_is_overwritten (session_id : string) (s : session)
  (message channel : string) :
  dget "agents_needed" (orchestrator_node (graph_input session_id s message channel)).1
    = Some (PList []) →
  ∃ st1,
    orchestrator_node (graph_input session_id s message channel) = (st1, Ok tt) ∧
    dget "response" (simple_response_node st1).1
      = Some (PStr (canned_reply (str_lower message))) ∧
    dget "response" (run_orchestrator session_id s message channel)
      = Some (PStr (match conversation_history s with
                    | [] => greeting_text
                    | _ => fallback_text
                    end)) ∧
    dget "response" (run_orchestrator session_id s message channel)
      ≠ Some (PStr (canned_reply (str_lower message))).
Proof.
  intros Hnone.
  pose proof (orchestrator_node_runs (graph_input session_id s message channel)
                message [] eq_refl eq_refl) as Hnode.
  cbv zeta in Hnode. set (agents := select_agents _ _) in Hnode.
  rewrite Hnode in Hnone. cbn [fst] in Hnone.
  rewrite dget_dset_ne, dget_dset_eq in Hnone by done.
  injection Hnone as Hnone. apply map_eq_nil in Hnone.
  clearbody agents. subst agents.
  eexists. split; [exact Hnode|]. split; [reflexivity|].
  assert (dget "response" (run_orchestrator session_id s message channel)
          = Some (PStr (match conversation_history s with
                        | [] => greeting_text
                        | _ => fallback_text
                        end))) as Hresp.
  { unfold run_orchestrator, orchestrator_graph.
    rewrite (bind_run _ _ _ _ _ Hnode).
    destruct (conversation_history s) eqn:Hhist; simpl; rewrite Hhist; reflexivity. }
  split; [exact Hresp|]. rewrite Hresp. intros [= Heq].
  pose proof canned_replies_differ as (H1 & H2 & H3 & H4 & H5 & H6).
  unfold canned_reply in Heq.
  destruct (conversation_history s); repeat case_match; congruence.
Qed.

End Engine.

(** ** A runtime and a world to run the engine on

    [str.lower] restricted to ASCII letters, which is what it does on an
    ASCII request; a clock that ticks once per reading; draws of one half,
    so that the first two configured gateways decline and the third
    accepts. *)

Definition lower_char (c : ascii) : ascii :=
  let n := nat_of_ascii c in
  if (65 <=? n)%nat && (n <=? 90)%nat then ascii_of_nat (n + 32) else c.

Fixpoint lower_ascii (s : string) : string :=
  match s with
  | EmptyString => EmptyString
  | String c s' => String (lower_char c) (lower_ascii s')
  end.

Definition ascii_runtime : PyRuntime :=
  {| str_lower := lower_ascii; py_repr := fun _ => "<repr>" |}.

Definition ticking_world : World :=
  {| wall_clock := fun _ n => PrimFloat.of_uint63 (Uint63.of_Z (Z.of_nat n));
     loop_time := fun n => PrimFloat.of_uint63 (Uint63.of_Z (Z.of_nat n));
     random_random := fun _ => 0.5%float;
     random_randint := 123456 |}.

Definition no_files : data_files :=
  {| products_json := None; stores_json := None; customers_json := None |}.

Definition empty_session : session :=
  {| customer_id := "CUST001"; conversation_history := [];
     liked_products := []; cart := []; location := "Mumbai" |}.

(** * The engine on concrete runs *)

Section Runs.
Local Existing Instance ascii_runtime.
Local Existing Instance ticking_world.

(** The state the graph receives for a request of a fresh session. *)
Definition fresh_input (message : string) : dict :=
  graph_input "SESSION_1" empty_session message "web".

(** C4, at the request "Is the blue shirt in stock?". *)
Lemma classifier_agent_set_witness :
  ∃ st' agents,
    orchestrator_node (fresh_input "Is the blue shirt in stock?") = (st', Ok tt) ∧
    dget "agents_needed" st' = Some (PList (map PStr agents)) ∧
    agents = ["inventory"; "loyalty"].
Proof.
  destruct (classifier_agent_set (fresh_input "Is the blue shirt in stock?")
              "Is the blue shirt in stock?" [] eq_refl eq_refl)
    as (st' & agents & Hrun & Hneeded & _ & _ & _ & _ & Hspec).
  - exists ("inventory", inventory_words). split; [|reflexivity].
    by apply (bool_decide_unpack _).
  - exists st', agents. split; [exact Hrun|]. split; [exact Hneeded|].
    rewrite Hspec. reflexivity.
Defined.

(** C10, in a world whose every draw is one half. *)
Lemma configured_gateways_never_all_fail_witness :
  ∃ d, coro_outcome (_process_payment_with_retry configured_gateways (PFloat 3950))
       = Returned (PDict d) ∧
       dget "success" d = Some (PBool true).
Proof.
  destruct (configured_gateways_never_all_fail (PFloat 3950))
    as (_ & d & history & Hout & Hok & _).
  - intros n. split; reflexivity.
  - exists d. split; [exact Hout|exact Hok].
Defined.

(** C9, at the request "I want to buy this". *)
Lemma buy_request_stays_pending_witness :
  ∃ st',
    orchestrator_node (fresh_input "I want to buy this") = (st', Ok tt) ∧
    execute payment_agent st'
      = Finish (Returned (PDict [("status", PStr "pending");
                                 ("amount", PFloat 3950);
                                 ("message", PStr "Ready to process payment")])).
Proof.
  destruct (buy_request_stays_pending (rt := ascii_runtime) (world := ticking_world)
              (fresh_input "I want to buy this")
              {| v_request := "I want to buy this"; v_cart := []; v_liked := [];
                 v_location := "Mumbai"; v_customer_id := "CUST001" |} [])
    as (st' & agents & d & Hrun & _ & _ & Hex & Hd & _);
    [vm_compute; reflexivity..|].
  exists st'. split; [exact Hrun|]. rewrite Hex, Hd. reflexivity.
Defined.






(** C2 on the code: at the request "hello" no agent is selected,
    [simple_response_node] stores the canned greeting, and the response of
    the run is the synthesizer's greeting instead. *)
Lemma hello_gets_the_synthesizer_greeting :
  ∃ st,
    orchestrator_node (fresh_input "hello") = (st, Ok tt) ∧
    dget "agents_needed" st = Some (PList []) ∧
    dget "response" (simple_response_node st).1 = Some (PStr greeting_reply) ∧
    dget "response" (run_orchestrator no_files "SESSION_1" empty_session "hello" "web")
      = Some (PStr greeting_text) ∧
    greeting_text ≠ greeting_reply.
Proof.
  eexists. split; [vm_compute; reflexivity|]. by vm_compute.
Qed.



End Runs.

(** * Further properties of the engine *)

Section Further.
Context {rt : PyRuntime} {world : World} (data : data_files).

(** ** What [gather] returns *)

(** What [run] returns for an outcome of [_execute]: the result, or [{}]. *)
Definition result_of (o : outcome) : pyval :=
  match o with
  | Returned r => r
  | Raised _ => PDict []
  end.

(** The state of a started task against the outcome of its [_execute]. *)
Definition task_outcome (t : task_state) (o : outcome) : Prop :=
  match t with
  | Completed r => r = result_of o
  | Suspended k => coro_outcome k = o
  end.

Lemma append_agent_call_same (entry : dict) (st : dict) :
  same_except_log st (append_agent_call entry st).1.
Proof.
  unfold append_agent_call.
  destruct (dget "agent_calls" st) as [[]|]; try apply same_except_log_refl.
  apply same_except_log_dset.
Qed.

Lemma update_last_call_same (fields : dict) (st : dict) :
  same_except_log st (update_last_call fields st).1.
Proof.
  unfold update_last_call.
  destruct (dget "agent_calls" st) as [[| | | | |calls|]|];
    try apply same_except_log_refl.
  destruct (last calls) as [[]|]; try apply same_except_log_refl.
  apply same_except_log_dset.
Qed.

Lemma run_end_inv (a : agent) (o : outcome) (st st' : dict) (r : pyval) :
  run_end a o st = (st', Ok r) → r = result_of o ∧ same_except_log st st'.
Proof.
  pose proof (update_last_call_same
                match o with
                | Returned r => success_fields a r
                | Raised e => failed_fields a e
                end st) as Hsame.
  destruct o; simpl; unfold mbind, M_bind;
    destruct (update_last_call _ st) as [st1 [[]|e']]; simpl in Hsame;
    intros Heq; try discriminate Heq; injection Heq as <- <-; by split.
Qed.

Lemma task_start_inv (a : agent) (st st' : dict) (t : task_state) :
  task_start a st = (st', Ok t) →
  same_except_log st st' ∧
  ∃ st1, same_except_log st st1 ∧ task_outcome t (coro_outcome (execute a st1)).
Proof.
  unfold task_start, run_begin, mbind, M_bind, get_state.
  pose proof (append_agent_call_same (processing_entry a) st) as Hsame.
  destruct (append_agent_call _ st) as [st1 [[]|e]]; [|done]. simpl in Hsame.
  unfold mret, M_ret.
  destruct (execute a st1) as [o|delay k] eqn:Hex.
  - destruct (run_end a o st1) as [st2 [r|e]] eqn:Hend; [|done].
    intros Heq; injection Heq as <- <-.
    apply run_end_inv in Hend as [-> Hsame2].
    split; [by eapply same_except_log_trans|].
    exists st1. split; [done|]. by rewrite Hex.
  - intros Heq; injection Heq as <- <-. split; [done|].
    exists st1. split; [done|]. by rewrite Hex.
Qed.

Lemma mapM_inv_cons {A B} (f : A → M B) (x : A) (l : list A) (st st' : dict)
  (ys : list B) :
  mapM f (x :: l) st = (st', Ok ys) →
  ∃ st1 y ys', f x st = (st1, Ok y) ∧ mapM f l st1 = (st', Ok ys') ∧ ys = y :: ys'.
Proof.
  rewrite mapM_cons_run. destruct (f x st) as [st1 [y|e]]; [|done].
  destruct (mapM f l st1) as [st2 [ys'|e]] eqn:Hl; [|done].
  intros Heq; injection Heq as <- <-. by exists st1, y, ys'.
Qed.

Lemma start_all_inv (tasks : list agent) (st st' : dict) (started : list task_state) :
  mapM task_start tasks st = (st', Ok started) →
  Forall2 (λ a t, ∃ st1, same_except_log st st1 ∧
                         task_outcome t (coro_outcome (execute a st1)))
          tasks started.
Proof.
  revert st started. induction tasks as [|a tasks IH]; intros st started.
  - intros Heq; injection Heq as <- <-. constructor.
  - intros (st1 & t & ts & Hstart & Hrest & ->)%mapM_inv_cons.
    apply task_start_inv in Hstart as (Hsame & Ht).
    constructor; [done|].
    eapply Forall2_impl; [by apply IH|].
    intros a' t' (st2 & Hsame2 & Ht'). exists st2. split; [|done].
    by eapply same_except_log_trans.
Qed.

Lemma resume_all_inv (pairs : list (agent * task_state)) (st st' : dict)
  (results : list pyval) :
  mapM task_resume pairs st = (st', Ok results) →
  Forall2 (λ p r, ∀ o, task_outcome p.2 o → r = result_of o) pairs results.
Proof.
  revert st results. induction pairs as [|[a t] pairs IH]; intros st results.
  - intros Heq; injection Heq as <- <-. constructor.
  - intros (st1 & r & rs & Hres & Hrest & ->)%mapM_inv_cons.
    constructor; [|by eapply IH].
    unfold task_resume in Hres. simpl in *. destruct t as [r'|k].
    + injection Hres as <- <-. by intros o ->.
    + apply run_end_inv in Hres as [-> _]. by intros o <-.
Qed.

(** [gather] returns, in task order, what each agent's [_execute] returned on
    the state it was started on, and [{}] for an agent that raised. *)
Lemma gather_results (tasks : list agent) (st : dict) (calls : list pyval) :
  dget "agent_calls" st = Some (PList calls) →
  ∃ st' results,
    gather tasks st = (st', Ok results) ∧
    same_except_log st st' ∧
    Forall2 (λ a r, ∃ st1, same_except_log st st1 ∧
                           r = result_of (coro_outcome (execute a st1)))
            tasks results.
Proof.
  intros Hcalls.
  destruct (start_all_log tasks st calls Hcalls)
    as (st1 & started & new & Hrun1 & Hlen1 & Hsame1 & Hlog1 & Hnew1 & _).
  destruct (resume_all_log tasks (zip tasks started) st1 calls new Hlog1 Hnew1)
    as (st2 & results & new' & Hrun2 & Hlen2 & Hsame2 & _).
  { destruct tasks; [done|]. by intros _. }
  exists st2, results. split.
  { unfold gather. by rewrite (bind_run _ _ _ _ _ Hrun1). }
  split; [by eapply same_except_log_trans|].
  apply start_all_inv in Hrun1. apply resume_all_inv in Hrun2.
  clear -Hrun1 Hrun2 Hlen1. revert started results Hrun1 Hrun2 Hlen1.
  induction tasks as [|a tasks IH]; intros started results H1 H2 Hlen.
  - destruct started; [|done]. simpl in H2.
    apply Forall2_nil_inv_l in H2 as ->. constructor.
  - destruct started as [|t started]; [done|]. simpl in H2.
    apply Forall2_cons_inv_l in H1 as (t' & ts' & (st1 & Hs & Ht) & H1 & [= <- <-]).
    apply Forall2_cons_inv_l in H2 as (r & rs & Hr & H2 & ->).
    constructor.
    + exists st1. split; [done|]. by apply Hr.
    + apply (IH started); [done..|]. simpl in Hlen. lia.
Qed.

(** ** The classifier and the routing *)

(** X1.  The classifier selects no agent exactly when no keyword group matches
    and both the cart and the liked products are empty; the graph then takes
    the edge to [simple_response], and the edge to [call_agents] otherwise. *)
Theorem classifier_selects_nothing_iff (st : dict) (req : string) (calls : list pyval) :
  dget "current_request" st = Some (PStr req) →
  dget "agent_calls" st = Some (PList calls) →
  let st' := (orchestrator_node st).1 in
  let nothing_matches :=
    truthy_opt (dget "cart" st) = false ∧
    truthy_opt (dget "liked_products" st) = false ∧
    ∀ g, g ∈ keyword_groups → any_in g.2 (str_lower req) = false in
  (dget "agents_needed" st' = Some (PList []) ↔ nothing_matches) ∧
  (should_call_agents st' = "simple_response" ↔ nothing_matches).
Proof.
  intros Hreq Hcalls st' nothing.
  pose proof (orchestrator_node_runs st req calls Hreq Hcalls) as Hrun.
  cbv zeta in Hrun. set (agents := select_agents _ _) in Hrun.
  assert (dget "agents_needed" st' = Some (PList (map PStr agents))) as Hneeded.
  { unfold st'. rewrite Hrun. cbn [fst].
    rewrite dget_dset_ne by done. apply dget_dset_eq. }
  assert (agents = [] ↔ nothing) as Hempty.
  { unfold agents, nothing. rewrite select_agents_empty, orb_false_iff. tauto. }
  split.
  - rewrite Hneeded, <- Hempty. split.
    + intros [= Hmap]. by apply map_eq_nil in Hmap.
    + by intros ->.
  - unfold should_call_agents. rewrite Hneeded, <- Hempty.
    unfold truthy_opt. rewrite truthy_agent_list.
    destruct agents; simpl; split; done.
Qed.

(** X2.  [orchestrator_node] on a state that holds a request but no audit log
    raises KeyError only after it has stored [agents_needed]: the state it
    leaves behind differs from the one it was given. *)
Theorem orchestrator_node_without_log (st : dict) (req : string) :
  dget "current_request" st = Some (PStr req) →
  dget "agent_calls" st = None →
  ∃ agents st',
    orchestrator_node st = (st', Err (KeyError "agent_calls")) ∧
    dget "agents_needed" st' = Some (PList (map PStr agents)) ∧
    agents = select_agents (str_lower req)
               (truthy_opt (dget "cart" st) || truthy_opt (dget "liked_products" st)) ∧
    dget "agent_calls" st' = None.
Proof.
  intros Hreq Hcalls. eexists _, _.
  unfold orchestrator_node, mbind, M_bind, get_item. rewrite Hreq.
  unfold get_state, set_item, append_agent_call.
  rewrite dget_dset_ne by done. rewrite Hcalls.
  split; [reflexivity|]. split; [apply dget_dset_eq|]. split; [reflexivity|].
  by rewrite dget_dset_ne.
Qed.

Lemma py_in_ids (name : string) (ids : list string) :
  py_in name (PList (map PStr ids)) = Ok (bool_decide (name ∈ ids)).
Proof.
  unfold py_in. f_equal. induction ids as [|i ids IH]; [done|]. simpl. rewrite IH.
  destruct (decide (name = i)) as [->|Hne].
  - rewrite (bool_decide_true (i = i)) by done.
    by rewrite (bool_decide_true (i ∈ i :: ids)) by left.
  - rewrite (bool_decide_false (name = i)) by done. simpl.
    apply bool_decide_ext. rewrite elem_of_cons. tauto.
Qed.

(** The tasks [call_agents_node] creates: one for every registered agent
    whose id occurs in [agents_needed], in the order of the registry. *)
Definition tasks_for (registry : list (string * agent)) (ids : list string) : list agent :=
  map snd (filter (λ na, na.1 ∈ ids) registry).

Lemma build_tasks_ids (registry : list (string * agent)) (ids : list string) :
  build_tasks registry (PList (map PStr ids)) = Ok (tasks_for registry ids).
Proof.
  unfold tasks_for. induction registry as [|[name a] registry IH]; [done|].
  cbn [build_tasks]. rewrite IH, py_in_ids. unfold mbind, result_bind.
  rewrite filter_cons. simpl.
  case_decide; [by rewrite bool_decide_true|by rewrite bool_decide_false].
Qed.

(** X3.  The agents are started in the order of the registry (recommendation,
    inventory, payment, fulfillment, loyalty, support), whatever the order of
    the ids in [agents_needed]; an id that occurs twice starts its agent
    once, and an id that is not registered starts nothing.  The log gains
    one entry per started agent, in that order. *)
Theorem dispatch_in_registry_order (st : dict) (ids : list string) (calls : list pyval) :
  dget "agents_needed" st = Some (PList (map PStr ids)) →
  dget "agent_calls" st = Some (PList calls) →
  ∃ new,
    dget "agent_calls" (call_agents_node data st).1 = Some (PList (calls ++ new)) ∧
    Forall2 logged (tasks_for (registered_agents data) ids) new.
Proof.
  intros Hneeded Hcalls.
  destruct (call_agents_node_log (registered_agents data) st calls
              (tasks_for (registered_agents data) ids))
    as (new & Hlog & Hnew & _).
  - apply registered_agents_keep_log.
  - done.
  - rewrite Hneeded. apply build_tasks_ids.
  - by exists new.
Qed.

(** X4.  When [agents_needed] is missing, empty, or names no registered agent,
    [call_agents_node] leaves the state as it is, the log included. *)
Theorem unknown_agent_ids_are_ignored (st : dict) (ids : list string) :
  default (PList []) (dget "agents_needed" st) = PList (map PStr ids) →
  (∀ i, i ∈ ids → i ∉ map fst (registered_agents data)) →
  call_agents_node data st = (st, Ok tt).
Proof.
  intros Hneeded Hids.
  unfold call_agents_node, call_agents_node_with, mbind, M_bind, get_state, lift.
  rewrite Hneeded, build_tasks_ids.
  assert (tasks_for (registered_agents data) ids = []) as ->; [|done].
  unfold tasks_for. set (registry := registered_agents data) in *. clearbody registry.
  induction registry as [|[name a] registry IH]; [done|].
  rewrite filter_cons. simpl. rewrite decide_False.
  - apply IH. intros i Hi Hin. apply (Hids i Hi). simpl. by right.
  - intros Hin. apply (Hids name Hin). simpl. by left.
Qed.



(** ** A run on a session *)

Lemma cart_item_round_trip (i : cart_item) :
  cart_item_of_py (py_of_cart_item i) = Some i.
Proof. by destruct i as [p q [s|]]. Qed.

Lemma mapM_round_trip {A} (enc : A → pyval) (dec : pyval → option A) (l : list A) :
  (∀ x, dec (enc x) = Some x) → mapM dec (map enc l) = Some l.
Proof.
  intros Hdec. apply mapM_Some_2.
  induction l as [|x l IH]; simpl; constructor; [apply Hdec|apply IH].
Qed.

(** What the agents read of the state [run_orchestrator] builds. *)
Definition session_view (s : session) (message : string) : view :=
  {| v_request := message; v_cart := cart s; v_liked := liked_products s;
     v_location := location s; v_customer_id := customer_id s |}.

Lemma view_of_graph_input (session_id : string) (s : session) (message channel : string) :
  view_of_state (graph_input session_id s message channel)
  = Some (session_view s message).
Proof.
  unfold view_of_state, get_str, get_list, graph_input. simpl.
  rewrite (mapM_round_trip py_of_cart_item) by apply cart_item_round_trip.
  by rewrite (mapM_round_trip PStr).
Qed.

(** The agents the classifier selects for a message of a session. *)
Definition session_agents (s : session) (message : string) : list string :=
  select_agents (str_lower message)
    (bool_decide (cart s ≠ []) || bool_decide (liked_products s ≠ [])).

(** The state after [orchestrator_node]. *)
Definition classified (session_id : string) (s : session) (message channel : string) : dict :=
  dset "agent_calls" (PList [orchestrator_entry (session_agents s message)])
    (dset "agents_needed" (PList (map PStr (session_agents s message)))
       (graph_input session_id s message channel)).

Lemma truthy_list_map {A} (f : A → pyval) (l : list A) :
  truthy (PList (map f l)) = bool_decide (l ≠ []).
Proof. by destruct l. Qed.

Lemma graph_input_classified (session_id : string) (s : session) (message channel : string) :
  orchestrator_node (graph_input session_id s message channel)
  = (classified session_id s message channel, Ok tt).
Proof.
  pose proof (orchestrator_node_runs (graph_input session_id s message channel)
                message [] eq_refl eq_refl) as Hnode.
  cbv zeta in Hnode. rewrite Hnode. unfold classified, session_agents.
  change (dget "cart" (graph_input session_id s message channel))
    with (Some (PList (map py_of_cart_item (cart s)))).
  change (dget "liked_products" (graph_input session_id s message channel))
    with (Some (PList (map PStr (liked_products s)))).
  unfold truthy_opt. by rewrite !truthy_list_map.
Qed.

Lemma classified_same (session_id : string) (s : session) (message channel : string)
  (k : string) :
  k ≠ "agent_calls" → k ≠ "agents_needed" →
  dget k (classified session_id s message channel)
  = dget k (graph_input session_id s message channel).
Proof. intros H1 H2. unfold classified. by rewrite !dget_dset_ne. Qed.

Lemma view_of_classified (session_id : string) (s : session) (message channel : string)
  (st : dict) :
  same_except_log (classified session_id s message channel) st →
  view_of_state st = Some (session_view s message).
Proof.
  intros Hsame. rewrite (same_except_log_view _ _ Hsame).
  unfold classified.
  rewrite !view_of_state_dset by (by apply (bool_decide_unpack _)).
  apply view_of_graph_input.
Qed.

(** The graph from the state [orchestrator_node] leaves. *)
Lemma orchestrator_graph_run (st st1 : dict) :
  orchestrator_node st = (st1, Ok tt) →
  orchestrator_graph data st
  = ((if decide (should_call_agents st1 = "call_agents") then call_agents_node data
      else simple_response_node) ≫= λ _, synthesize_response_node) st1.
Proof. intros Hnode. unfold orchestrator_graph. by rewrite (bind_run _ _ _ _ _ Hnode). Qed.

Lemma call_agents_node_run (registry : list (string * agent)) (st : dict)
  (ids : list string) :
  dget "agents_needed" st = Some (PList (map PStr ids)) →
  tasks_for registry ids ≠ [] →
  call_agents_node_with registry st
  = (gather (tasks_for registry ids) ≫= merge_results) st.
Proof.
  intros Hneeded Htasks.
  unfold call_agents_node_with, mbind at 1 2, M_bind at 1 2, get_state, lift.
  rewrite Hneeded. simpl. rewrite build_tasks_ids.
  by destruct (tasks_for registry ids).
Qed.

(** ** The session endpoints ([main.py])

    What [like_product], [add_to_cart], [update_cart] and [run_orchestrator]
    do to the session they find. *)

Definition with_liked_products (liked : list string) (s : session) : session :=
  {| customer_id := customer_id s; conversation_history := conversation_history s;
     liked_products := liked; cart := cart s; location := location s |}.

Definition with_cart (items : list cart_item) (s : session) : session :=
  {| customer_id := customer_id s; conversation_history := conversation_history s;
     liked_products := liked_products s; cart := items; location := location s |}.

Definition with_conversation_history (history : list pyval) (s : session) : session :=
  {| customer_id := customer_id s; conversation_history := history;
     liked_products := liked_products s; cart := cart s; location := location s |}.

Definition like_product (product_id : string) (s : session) : session :=
  if bool_decide (product_id ∈ liked_products s) then s
  else with_liked_products (liked_products s ++ [product_id]) s.

(** The entry is built from the [CartUpdate] of the request. *)
Definition add_to_cart (cart_update : cart_item) (s : session) : session :=
  with_cart (cart s ++ [cart_update]) s.

(** The loop of [update_cart], which breaks at the first entry of the
    product. *)
Fixpoint set_quantity (product_id : string) (quantity : Z) (items : list cart_item)
  : list cart_item :=
  match items with
  | [] => []
  | item :: rest =>
      if decide (ci_product_id item = product_id) then
        {| ci_product_id := ci_product_id item; ci_quantity := quantity;
           ci_size := ci_size item |} :: rest
      else item :: set_quantity product_id quantity rest
  end.

Definition update_cart (cart_update : cart_item) (s : session) : session :=
  with_cart (set_quantity (ci_product_id cart_update) (ci_quantity cart_update) (cart s)) s.

(** A turn of the conversation, as [run_orchestrator] records it. *)
Definition turn (role : string) (content : pyval) (channel : string) : pyval :=
  PDict [("role", PStr role); ("content", content); ("channel", PStr channel)].

(** The session [run_orchestrator] leaves: the two turns are appended once
    the graph has returned ([result["response"]] raises KeyError, after the
    first [append], on a result without a response), and nothing is appended
    when the graph has raised. *)
Definition run_orchestrator_session (session_id : string) (s : session)
  (message channel : string) : session :=
  match orchestrator_graph data (graph_input session_id s message channel) with
  | (result, Ok _) =>
      let history := conversation_history s ++ [turn "user" (PStr message) channel] in
      match dget "response" result with
      | Some response =>
          with_conversation_history (history ++ [turn "assistant" response channel]) s
      | None => with_conversation_history history s
      end
  | (_, Err _) => s
  end.

(** ** Failures of agents *)

Definition is_dict (r : pyval) : Prop := ∃ d, r = PDict d.

(** From the state [st] on, what the agent returns is a dict. *)
Definition returns_dict_from (st : dict) (a : agent) : Prop :=
  ∀ st', same_except_log st st' → is_dict (result_of (coro_outcome (execute a st'))).

Lemma merge_results_dicts (results : list pyval) (st : dict) :
  Forall is_dict results → ∃ st', merge_results results st = (st', Ok tt).
Proof.
  revert st. induction results as [|r results IH]; intros st Hall.
  - by exists st.
  - apply Forall_cons in Hall as [[d ->] Hall]. cbn [merge_results].
    unfold mbind, M_bind. destruct (truthy (PDict d)); simpl; apply IH, Hall.
Qed.

Lemma merge_results_pre (pre rest : list pyval) (st : dict) :
  Forall is_dict pre → ∃ st', merge_results (pre ++ rest) st = merge_results rest st'.
Proof.
  revert st. induction pre as [|r pre IH]; intros st Hall.
  - by exists st.
  - apply Forall_cons in Hall as [[d ->] Hall]. cbn [app merge_results].
    unfold mbind, M_bind. destruct (truthy (PDict d)); simpl; apply IH, Hall.
Qed.

Lemma gathered_dicts (st : dict) (tasks : list agent) (results : list pyval) :
  Forall (returns_dict_from st) tasks →
  Forall2 (λ a r, ∃ st1, same_except_log st st1 ∧
                         r = result_of (coro_outcome (execute a st1)))
          tasks results →
  Forall is_dict results.
Proof.
  intros Hall HF. induction HF as [|a r tasks results (st1 & Hsame & ->) HF IH].
  - constructor.
  - apply Forall_cons in Hall as [Ha Hall]. constructor; [by apply Ha|by apply IH].
Qed.


(** *** The store query *)

Lemma bind_err {A B} (m : M A) (f : A → M B) (st st' : dict) (e : exn) :
  m st = (st', Err e) → (m ≫= f) st = (st', Err e).
Proof. intros H. unfold mbind, M_bind. by rewrite H. Qed.

Lemma recommendation_returns_dict (st : dict) :
  is_dict (result_of (coro_outcome (execute (recommendation_agent data) st))).
Proof.
  simpl. unfold on_view. destruct (view_of_state st); simpl; by eexists.
Qed.

Lemma merge_store_list (k1 k2 k3 k4 : string) (v1 v2 v3 v4 : pyval)
  (l rest : list pyval) (st : dict) :
  merge_results (PList (PDict [(k1, v1); (k2, v2); (k3, v3); (k4, v4)] :: l) :: rest) st
  = (st, Err (ValueError
                "dictionary update sequence element #0 has length 4; 2 is required")).
Proof. reflexivity. Qed.

Lemma store_query_selects_inventory (request : string) (cart_or_liked : bool) :
  str_contains "store" request || str_contains "nearby" request = true →
  "inventory" ∈ select_agents request cart_or_liked.
Proof.
  intros Hq.
  apply (select_agents_matched request cart_or_liked ("inventory", inventory_words)).
  - unfold keyword_groups. by apply (bool_decide_unpack _).
  - unfold any_in, inventory_words. cbn [snd existsb].
    apply orb_true_iff in Hq as [->| ->]; by rewrite ?orb_true_r.
Qed.

Lemma inventory_task_split (ids : list string) :
  "inventory" ∈ ids →
  ∃ pre post,
    tasks_for (registered_agents data) ids = pre ++ inventory_agent data :: post ∧
    (pre = [] ∨ pre = [recommendation_agent data]).
Proof.
  intros Hin. unfold tasks_for, registered_agents.
  rewrite filter_cons. destruct (decide _) as [Hrec|Hrec];
    rewrite filter_cons, decide_True by done; cbn [map snd].
  - eexists [_], _. split; [reflexivity|by right].
  - eexists [], _. split; [reflexivity|by left].
Qed.

(** X7.  A request for stores never gets an answer.  When the request mentions
    "store" or "nearby" (and neither "stock" nor "available"), the inventory
    agent returns its list of stores where a dict is expected; the merge of
    the results raises ValueError on it, and the run ends with the apology,
    whatever the session holds and whatever else the request asks for.  The
    session keeps no trace of the exchange. *)
Theorem store_query_aborts_the_run (session_id : string) (s : session)
  (message channel : string) :
  inventory_stores data ≠ [] →
  str_contains "stock" (str_lower message) = false →
  str_contains "available" (str_lower message) = false →
  str_contains "store" (str_lower message) || str_contains "nearby" (str_lower message)
    = true →
  run_orchestrator data session_id s message channel
  = [("success", PBool false);
     ("response", PStr apology);
     ("error", PStr "dictionary update sequence element #0 has length 4; 2 is required")] ∧
  run_orchestrator_session session_id s message channel = s.
Proof.
  intros Hstores Hstock Havailable Hquery.
  pose proof (store_query_selects_inventory (str_lower message)
                (bool_decide (cart s ≠ []) || bool_decide (liked_products s ≠ []))
                Hquery) as Hinv.
  fold (session_agents s message) in Hinv.
  set (st1 := classified session_id s message channel).
  assert (dget "agents_needed" st1 = Some (PList (map PStr (session_agents s message))))
    as Hneeded.
  { unfold st1, classified. rewrite dget_dset_ne by done. apply dget_dset_eq. }
  destruct (inventory_task_split _ Hinv) as (pre & post & Htasks & Hpre).
  enough (∃ st3, orchestrator_graph data (graph_input session_id s message channel)
                 = (st3, Err (ValueError
                      "dictionary update sequence element #0 has length 4; 2 is required")))
    as (st3 & Hgraph)
    by (unfold run_orchestrator, run_orchestrator_session; by rewrite Hgraph).
  rewrite (orchestrator_graph_run _ _ (graph_input_classified session_id s message channel)).
  fold st1. unfold should_call_agents. rewrite Hneeded. unfold truthy_opt.
  rewrite truthy_agent_list, bool_decide_true
    by (intros Hnil; rewrite Hnil in Hinv; by apply elem_of_nil in Hinv).
  rewrite decide_True by done.
  enough (∃ st3, call_agents_node data st1
                 = (st3, Err (ValueError
                      "dictionary update sequence element #0 has length 4; 2 is required")))
    as (st3 & Hcall) by (exists st3; by rewrite (bind_err _ _ _ _ _ Hcall)).
  unfold call_agents_node.
  rewrite (call_agents_node_run _ st1 _ Hneeded)
    by (rewrite Htasks; by destruct pre).
  destruct (gather_results (tasks_for (registered_agents data) (session_agents s message))
              st1 [orchestrator_entry (session_agents s message)])
    as (st2 & results & Hrun & _ & HF); [apply dget_dset_eq|].
  rewrite Htasks in HF.
  apply Forall2_app_inv_l in HF as (rpre & rrest & Hrpre & Hrrest & ->).
  apply Forall2_cons_inv_l in Hrrest as (rinv & rpost & (stx & Hsame & ->) & _ & ->).
  assert (Forall is_dict rpre) as Hdicts.
  { clear -Hrpre Hpre. destruct Hpre as [-> | ->].
    - apply Forall2_nil_inv_l in Hrpre as ->. constructor.
    - apply Forall2_cons_inv_l in Hrpre as (r & rs & (stx & _ & ->) & Hnil & ->).
      apply Forall2_nil_inv_l in Hnil as ->.
      repeat constructor. apply recommendation_returns_dict. }
  destruct (merge_results_pre rpre
              (result_of (coro_outcome (execute (inventory_agent data) stx)) :: rpost)
              st2 Hdicts) as (st3 & Hmerge).
  assert (execute (inventory_agent data) stx
          = Finish (Returned (PList (_find_nearby_stores data (location s))))) as Hex.
  { simpl. unfold on_view. rewrite (view_of_classified _ _ _ _ _ Hsame).
    unfold inventory_execute. cbn [session_view v_request v_cart v_location].
    by rewrite Hstock, Havailable, Hquery. }
  exists st3. rewrite (bind_run _ _ _ _ _ Hrun), Hmerge, Hex.
  cbn [coro_outcome result_of]. unfold _find_nearby_stores.
  destruct (inventory_stores data) as [|store0 stores]; [done|].
  apply merge_store_list.
Qed.

(** ** The value of a cart *)

(** The number of units in a cart. *)
Definition units (cart : list cart_item) : Z :=
  foldr Z.add 0 (map ci_quantity cart).

Lemma cart_value_from (cart : list cart_item) (z : Z) :
  fold_left (fun total item => total + 2500 * ci_quantity item) cart z
  = z + 2500 * units cart.
Proof.
  revert z. induction cart as [|i cart IH]; intros z.
  - unfold units. simpl. lia.
  - cbn [fold_left]. rewrite IH. unfold units. simpl. lia.
Qed.

Lemma cart_value_units (cart : list cart_item) : cart_value cart = 2500 * units cart.
Proof. unfold cart_value. by rewrite cart_value_from. Qed.

Lemma units_app (c1 c2 : list cart_item) : units (c1 ++ c2) = units c1 + units c2.
Proof. unfold units. induction c1 as [|i c1 IH]; simpl in *; lia. Qed.

Lemma foldr_add_Permutation (l1 l2 : list Z) :
  l1 ≡ₚ l2 → foldr Z.add 0 l1 = foldr Z.add 0 l2.
Proof. induction 1; simpl; lia. Qed.

(** X8.  The total the payment agent charges depends on the quantities alone:
    every unit costs 2500, whatever the product, its size and its price in
    the catalogue, so two carts with the same quantities, in any order, have
    the same total. *)
Theorem order_total_ignores_products (c1 c2 : list cart_item) :
  map ci_quantity c1 ≡ₚ map ci_quantity c2 →
  _calculate_total c1 = _calculate_total c2.
Proof.
  intros Hperm.
  assert (cart_value c1 = cart_value c2) as Hvalue.
  { rewrite !cart_value_units. unfold units. by rewrite (foldr_add_Permutation _ _ Hperm). }
  destruct c1 as [|i1 c1], c2 as [|i2 c2]; simpl in Hperm.
  - done.
  - by apply Permutation_nil_cons in Hperm.
  - symmetry in Hperm. by apply Permutation_nil_cons in Hperm.
  - unfold _calculate_total. by rewrite Hvalue.
Qed.

(** ** The payment agent *)

Definition asks_to_pay (request : string) : bool :=
  str_contains "pay" request || str_contains "checkout" request
  || str_contains "purchase" request.

(** X9.  [PaymentAgent._execute] never raises, and on each of its three ways out
    (pending, completed, failed) the amount it reports is the cart total of
    [_calculate_total]; it sleeps on a gateway only when the request asks to
    pay, and reports "pending" in exactly the other case. *)
Theorem payment_reports_the_cart_total (gateways : list gateway) (v : view) :
  ∃ d,
    coro_outcome (payment_execute_with gateways v) = Returned (PDict d) ∧
    dget "amount" d = Some (_calculate_total (v_cart v)) ∧
    (asks_to_pay (str_lower (v_request v)) = false →
     dget "status" d = Some (PStr "pending") ∧
     coro_sleeps (payment_execute_with gateways v) = []) ∧
    (asks_to_pay (str_lower (v_request v)) = true →
     (dget "status" d = Some (PStr "completed") ∨ dget "status" d = Some (PStr "failed")) ∧
     ∃ m, (m ≤ length gateways)%nat ∧
          coro_sleeps (payment_execute_with gateways v) = map g_timeout (take m gateways)).
Proof.
  unfold payment_execute_with, asks_to_pay.
  destruct (_ || _) eqn:Hpay.
  - destruct (retry_loop_run gateways (_calculate_total (v_cart v)) gateways [])
      as (m & d & Hm & Hout & Hsleeps & _ & Hamount & _ & Hend).
    exists d. unfold _process_payment_with_retry.
    split; [done|]. split; [done|]. split; [done|]. intros _. split.
    + destruct Hend as [(i & g & _ & _ & _ & _ & Hs & _)|(_ & _ & _ & Hs)]; auto.
    + by exists m.
  - eexists. split; [reflexivity|]. split; [reflexivity|]. by split.
Qed.

(** ** The fulfillment agent *)

(** X10.  For a cart that is not empty the fulfillment agent recommends standard
    (free) delivery exactly when the cart holds two units or more: its
    threshold of 4000 lies between the value of one unit and of two. *)
Theorem free_delivery_from_two_units (v : view) :
  v_cart v ≠ [] →
  ∃ d,
    fulfillment_execute v = Finish (Returned (PDict d)) ∧
    dget "status" d = Some (PStr "available") ∧
    dget "recommended" d
      = Some (PStr (if bool_decide (2 ≤ units (v_cart v)) then "standard" else "express")) ∧
    dget "message" d
      = Some (PStr (if bool_decide (2 ≤ units (v_cart v)) then "Free delivery available!"
                    else "Express delivery available")).
Proof.
  intros Hne. unfold fulfillment_execute.
  destruct (v_cart v) as [|i cart] eqn:Hcart; [done|].
  rewrite cart_value_units.
  assert ((4000 <? 2500 * units (i :: cart)) = bool_decide (2 ≤ units (i :: cart))) as ->.
  { case_bool_decide; [apply Z.ltb_lt|apply Z.ltb_ge]; lia. }
  eexists. split; [reflexivity|]. by destruct (bool_decide _).
Qed.

(** ** The loyalty agent *)

(** [customer.get("loyalty_points", 500)] of the customer of the session. *)
Definition points_of (customer_id : string) : Z :=
  match find_customer data customer_id with
  | Some c => c_loyalty_points c
  | None => 500
  end.

(** The offers by the number of entries of the cart. *)
Definition offers_for (entries : nat) : list string :=
  if bool_decide (3 ≤ entries)%nat then ["Bundle Offer: 20% off on 3+ items"]
  else if bool_decide (2 ≤ entries)%nat then ["Multi-buy: 10% off on 2+ items"]
  else [].

(** X11.  The loyalty agent raises only on numbers too large for a float: when
    the value of the cart and the points of the customer both convert, it
    returns its result.  The offer goes by the number of entries of the cart
    (three or more, two, fewer), not by the units, and the price it starts
    from is 2500 per unit. *)
Theorem loyalty_succeeds_in_float_range (v : view) :
  is_Some (float_of_Z (cart_value (v_cart v))) →
  is_Some (float_of_Z (points_of (v_customer_id v))) →
  ∃ d,
    loyalty_result data v = Ok (PDict d) ∧
    dget "status" d = Some (PStr "calculated") ∧
    dget "points_available" d = Some (PInt (points_of (v_customer_id v))) ∧
    dget "original_price" d = Some (PInt (2500 * units (v_cart v))) ∧
    dget "offers" d = Some (PList (map PStr (offers_for (length (v_cart v))))).
Proof.
  intros [f Hf] [g Hg]. unfold loyalty_result, offers_for.
  fold (points_of (v_customer_id v)). rewrite <- cart_value_units.
  set (cv := cart_value (v_cart v)) in *. set (pts := points_of (v_customer_id v)) in *.
  unfold mul_int_float. rewrite Hf.
  destruct (bool_decide (3 ≤ length (v_cart v))%nat);
    [|destruct (bool_decide (2 ≤ length (v_cart v))%nat)];
    cbn [mbind result_bind py_sub]; rewrite ?Hf; cbn [mbind result_bind py_sub].
  all: unfold min_int_float; destruct (float_lt_int _ _);
    cbn [mbind result_bind py_sub py_format_fixed];
    rewrite ?Z.sub_0_r, ?Hf, ?Hg; cbn [mbind result_bind py_sub py_format_fixed];
    rewrite ?Hf, ?Hg; cbn [mbind result_bind py_sub py_format_fixed].
  all: try (replace (cv - (cv - pts)) with pts by lia; rewrite Hg;
            cbn [mbind result_bind]).
  all: eexists; split; [reflexivity|]; by repeat split.
Qed.

(** ** The recommendation agent *)

(** The products [RecommendationAgent._execute] selects, before the cut to
    five. *)
Definition recommended (v : view) : list product :=
  if bool_decide (v_liked v ≠ []) then _get_matching_products data (v_liked v)
  else if bool_decide (v_cart v ≠ []) then _get_complementary_products data (v_cart v)
  else _get_trending_products data.

(** A product with its reasoning, as the agent returns it. *)
Definition recommendation_item (v : view) (p : product) : pyval :=
  PDict (dset "reasoning" (PStr (_generate_reasoning p v)) (py_of_product p)).

Lemma recommendation_execute_eq (v : view) :
  recommendation_execute data v
  = Finish (Returned (PDict
      [("recommendations", PList (take 5 (map (recommendation_item v) (recommended v))));
       ("total_found", PInt (Z.of_nat (length (recommended v))))])).
Proof. reflexivity. Qed.

Lemma insert_desc_Permutation (x : product) (l : list product) :
  insert_desc x l ≡ₚ x :: l.
Proof.
  induction l as [|y l IH]; simpl; [done|].
  destruct (num_lt _ _); [done|]. rewrite IH. apply Permutation_swap.
Qed.

Lemma trending_from (l acc : list product) :
  fold_left (fun acc x => insert_desc x acc) l acc ≡ₚ acc ++ l.
Proof.
  revert acc. induction l as [|x l IH]; intros acc; simpl.
  - by rewrite app_nil_r.
  - rewrite IH, insert_desc_Permutation. simpl. apply Permutation_middle.
Qed.

Lemma trending_Permutation :
  _get_trending_products data ≡ₚ recommendation_products data.
Proof. unfold _get_trending_products. by rewrite trending_from. Qed.

Lemma matching_products (liked : list string) :
  _get_matching_products data liked ⊆ recommendation_products data ∧
  (recommendation_products data ≠ [] → _get_matching_products data liked ≠ []).
Proof.
  unfold _get_matching_products.
  destruct (filter _ _) as [|p matched] eqn:Hf.
  - split; [apply subseteq_take|]. by destruct (recommendation_products data).
  - split; [|done]. rewrite <- Hf. intros p' Hp'. apply list_elem_of_filter in Hp'. tauto.
Qed.

Lemma recommended_products (v : view) :
  recommended v ⊆ recommendation_products data ∧
  (recommendation_products data ≠ [] → recommended v ≠ []).
Proof.
  unfold recommended, _get_complementary_products.
  repeat case_bool_decide; try apply matching_products.
  split.
  - intros p. by rewrite trending_Permutation.
  - intros Hne Hnil. apply Hne. apply Permutation_nil_r.
    by rewrite <- Hnil, trending_Permutation.
Qed.

(** X12.  The recommendation agent never comes back empty-handed: as long as the
    catalogue holds a product, it returns between one and five items, each a
    product of the catalogue with a reasoning added, and [total_found]
    counts the items found before the cut to five. *)
Theorem recommendation_never_empty_handed (v : view) :
  recommendation_products data ≠ [] →
  ∃ (found : list product),
    recommendation_execute data v
    = Finish (Returned (PDict
        [("recommendations", PList (map (recommendation_item v) (take 5 found)));
         ("total_found", PInt (Z.of_nat (length found)))])) ∧
    (1 ≤ length (take 5 found) ≤ 5)%nat ∧
    length (take 5 found) = Nat.min 5 (length found) ∧
    found ⊆ recommendation_products data.
Proof.
  intros Hne. exists (recommended v).
  destruct (recommended_products v) as [Hsub Hfound]. specialize (Hfound Hne).
  split; [by rewrite recommendation_execute_eq, firstn_map|].
  split; [|split; [apply length_take|done]].
  rewrite length_take. destruct (recommended v); [done|]. cbn [length]. lia.
Qed.

(** ** The reply of a run *)

(** The line of the reply for a product. *)
Definition product_line (p : product) : string :=
  item_text (PStr (p_name p)) (py_of_num (p_price p)).

Lemma item_line_of_item (v : view) (p : product) :
  item_line (recommendation_item v p) = Ok (product_line p).
Proof.
  unfold item_line, recommendation_item, subscript.
  rewrite !dget_dset_ne by done. reflexivity.
Qed.

Lemma item_lines_of_items (v : view) (ps : list product) :
  mapM item_line (map (recommendation_item v) ps) = Ok (map product_line ps).
Proof.
  induction ps as [|p ps IH]; [done|].
  cbn [map mapM]. by rewrite item_line_of_item, IH.
Qed.

Lemma recommendations_section_items (v : view) (ps : list product) :
  recommendations_section (PList (map (recommendation_item v) ps))
  = Ok (found_line (length ps) :: map product_line (take 3 ps)).
Proof.
  unfold recommendations_section.
  by rewrite firstn_map, item_lines_of_items, length_map.
Qed.

(** What the synthesizer says about the recommendations of the agent. *)
Definition recommendation_lines (v : view) : list string :=
  match take 5 (recommended v) with
  | [] => []
  | shown => found_line (length shown) :: map product_line (take 3 shown)
  end.

Lemma when_slot_recommendations (st : dict) (v : view) :
  dget "recommendations" st
    = Some (PList (take 5 (map (recommendation_item v) (recommended v)))) →
  when_slot "recommendations" recommendations_section st = Ok (recommendation_lines v).
Proof.
  intros Hrecs. unfold when_slot, recommendation_lines. rewrite Hrecs.
  rewrite firstn_map, truthy_list_map, recommendations_section_items.
  by destruct (take 5 (recommended v)).
Qed.

(** The parts of a reply whose only source is the recommendations. *)
Definition reply_parts (history : list pyval) (lines : list string) : list string :=
  match (match history with [] => [greeting_text] | _ => [] end) ++ lines with
  | [] => [fallback_text]
  | parts => parts
  end.

Lemma synthesize_from_recommendations (st : dict) (history : list pyval)
  (lines : list string) :
  dget "messages" st = Some (PList history) →
  when_slot "recommendations" recommendations_section st = Ok lines →
  Forall (λ slot, dget slot st = None) unassigned_slots →
  synthesize_response_node st
  = (dset "response"
       (PStr (String.concat (newline +:+ newline) (reply_parts history lines))) st,
     Ok tt).
Proof.
  intros Hmsg Hrecs Hslots.
  unfold unassigned_slots in Hslots.
  apply Forall_cons in Hslots as [H1 Hslots]. apply Forall_cons in Hslots as [H2 Hslots].
  apply Forall_cons in Hslots as [H3 Hslots]. apply Forall_cons in Hslots as [H4 Hslots].
  apply Forall_cons in Hslots as [H5 _].
  assert (response_parts st = Ok (reply_parts history lines)) as Hparts.
  { unfold response_parts, response_sections. rewrite Hmsg, Hrecs.
    rewrite !when_slot_empty by (by rewrite ?H1, ?H2, ?H3, ?H4, ?H5).
    unfold reply_parts. cbn [mbind result_bind]. rewrite !app_nil_r.
    destruct history; simpl; [done|by destruct lines]. }
  unfold synthesize_response_node, mbind, M_bind, get_state, lift.
  by rewrite Hparts.
Qed.

(** The agents other than the recommendation agent, in registry order. *)
Definition other_agents : list (string * agent) :=
  [("inventory", inventory_agent data);
   ("payment", payment_agent);
   ("fulfillment", fulfillment_agent);
   ("loyalty", loyalty_agent data);
   ("support", support_agent)].

Ltac avoid_listed :=
  intros ? Hslot;
  repeat (apply elem_of_cons in Hslot as [->|Hslot]);
  [..|by apply elem_of_nil in Hslot];
  by apply (bool_decide_unpack _).

Lemma retry_loop_keeps_recommendations (gateways : list gateway) (amount : pyval)
  (remaining : list gateway) (hist : list pyval) :
  outcome_avoids ["recommendations"]
    (coro_outcome (retry_loop gateways amount remaining hist)).
Proof.
  revert hist. induction remaining as [|g rest IH]; intros hist; simpl.
  - avoid_listed.
  - destruct (attempt_succeeds _ g); [simpl; avoid_listed|apply IH].
Qed.

Lemma check_stock_keeps_recommendations (product_id : string) (size : option string)
  (location : string) :
  avoids ["recommendations"] (PDict (_check_stock data product_id size location)).
Proof.
  unfold _check_stock. case_decide; [avoid_listed|].
  destruct (_ || _); avoid_listed.
Qed.

Lemma other_agents_keep_recommendations :
  Forall (λ na, agent_avoids ["recommendations"] na.2) other_agents.
Proof.
  unfold other_agents. repeat constructor; cbn [snd].
  - apply on_view_avoids; intros v. simpl.
    destruct (_ || _).
    { destruct (v_cart v); apply check_stock_keeps_recommendations. }
    destruct (_ || _).
    { unfold _find_nearby_stores, avoids. simpl.
      destruct (inventory_stores data); simpl; intros; apply not_elem_of_nil. }
    destruct (v_cart v); avoid_listed.
  - apply on_view_avoids; intros v.
    unfold payment_execute, payment_execute_with.
    destruct (_ || _); [apply retry_loop_keeps_recommendations|simpl; avoid_listed].
  - apply on_view_avoids; intros v. simpl. destruct (v_cart v); avoid_listed.
  - apply on_view_avoids; intros v. simpl.
    destruct (loyalty_result data v) as [r|e] eqn:Hr; [|done]. simpl.
    apply loyalty_result_keys in Hr as (d & -> & Hd).
    unfold avoids. simpl. rewrite Hd. avoid_listed.
  - apply on_view_avoids; intros v. simpl.
    repeat (destruct (_ || _); [avoid_listed|]). avoid_listed.
Qed.

(** The keys of the state the synthesizer reads. *)
Definition reply_keys : list string :=
  ["recommendations"; "messages"; "inventory_status"; "payment_status";
   "fulfillment_info"; "loyalty_info"; "support_info"].

Lemma other_agents_keep_reply_keys :
  Forall (λ na, agent_avoids reply_keys na.2) other_agents.
Proof.
  pose proof other_agents_keep_recommendations as Hrec.
  pose proof (registered_agents_reserved data) as Hres.
  unfold registered_agents in Hres. apply Forall_cons in Hres as [_ Hres].
  fold other_agents in Hres.
  eapply Forall_impl; [apply Forall_and; split; [exact Hrec|exact Hres]|].
  intros na [H1 H2] st. specialize (H1 st). specialize (H2 st).
  destruct (coro_outcome (execute na.2 st)); [|done].
  intros k Hk. unfold reply_keys in Hk.
  apply elem_of_cons in Hk as [->|Hk]; [apply H1; by left|].
  apply H2. unfold reserved_keys.
  repeat (apply elem_of_cons in Hk as [->|Hk]);
    [..|by apply elem_of_nil in Hk]; by apply (bool_decide_unpack _).
Qed.

(** The branch of the inventory agent that returns a list. *)
Definition store_branch (request : string) : bool :=
  negb (str_contains "stock" request || str_contains "available" request)
  && (str_contains "store" request || str_contains "nearby" request).

Lemma other_agents_return_dicts (session_id : string) (s : session)
  (message channel : string) :
  store_branch (str_lower message) = false →
  Forall (λ na, returns_dict_from (classified session_id s message channel) na.2)
         other_agents.
Proof.
  intros Hbranch. unfold other_agents. repeat constructor; cbn [snd]; intros st Hsame.
  - simpl. unfold on_view. rewrite (view_of_classified _ _ _ _ _ Hsame).
    unfold inventory_execute, store_branch in *.
    cbn [session_view v_request v_cart v_location].
    destruct (_ || _); [destruct (cart s); by eexists|].
    simpl in Hbranch. rewrite Hbranch. destruct (cart s); by eexists.
  - simpl. unfold on_view. destruct (view_of_state st) as [v|]; [|by eexists].
    unfold payment_execute, payment_execute_with.
    destruct (_ || _); [|by eexists].
    destruct (retry_loop_run configured_gateways (_calculate_total (v_cart v))
                configured_gateways []) as (m & d & _ & Hout & _).
    unfold _process_payment_with_retry. rewrite Hout. by eexists.
  - simpl. unfold on_view. destruct (view_of_state st) as [v|]; [|by eexists].
    by eexists.
  - simpl. unfold on_view. destruct (view_of_state st) as [v|]; [|by eexists].
    unfold loyalty_execute.
    destruct (loyalty_result data v) as [r|e] eqn:Hr; [|by eexists].
    apply loyalty_result_keys in Hr as (d & -> & _). by eexists.
  - simpl. unfold on_view. destruct (view_of_state st) as [v|]; [|by eexists].
    by eexists.
Qed.

Lemma tasks_for_cons (name : string) (a : agent) (registry : list (string * agent))
  (ids : list string) :
  tasks_for ((name, a) :: registry) ids
  = if decide (name ∈ ids) then a :: tasks_for registry ids else tasks_for registry ids.
Proof. unfold tasks_for. rewrite filter_cons. simpl. by case_decide. Qed.

Lemma tasks_for_Forall (P : agent → Prop) (registry : list (string * agent))
  (ids : list string) :
  Forall (λ na, P na.2) registry → Forall P (tasks_for registry ids).
Proof.
  intros Hall. unfold tasks_for. apply Forall_fmap.
  apply Forall_forall. intros na Hna. apply list_elem_of_filter in Hna as [_ Hna].
  by apply (proj1 (Forall_forall _ _) Hall).
Qed.

Lemma gathered_avoid (K : list string) (st : dict) (tasks : list agent)
  (results : list pyval) :
  Forall (agent_avoids K) tasks →
  Forall2 (λ a r, ∃ st1, same_except_log st st1 ∧
                         r = result_of (coro_outcome (execute a st1)))
          tasks results →
  Forall (avoids K) results.
Proof.
  intros Hall HF. induction HF as [|a r tasks results (st1 & Hsame & ->) HF IH].
  - constructor.
  - apply Forall_cons in Hall as [Ha Hall]. constructor; [|by apply IH].
    specialize (Ha st1). destruct (coro_outcome (execute a st1)); [done|].
    intros k _. apply not_elem_of_nil.
Qed.

(** The merge of what the other agents returned leaves alone what the
    synthesizer reads. *)
Lemma merge_of_other_agents (session_id : string) (s : session)
  (message channel : string) (results : list pyval) (st : dict) :
  store_branch (str_lower message) = false →
  Forall2 (λ a r, ∃ st1, same_except_log (classified session_id s message channel) st1 ∧
                         r = result_of (coro_outcome (execute a st1)))
          (tasks_for other_agents (session_agents s message)) results →
  ∃ st', merge_results results st = (st', Ok tt) ∧
         ∀ k, k ∈ reply_keys → dget k st' = dget k st.
Proof.
  intros Hbranch HF.
  destruct (merge_results_dicts results st) as (st' & Hmerge).
  { eapply gathered_dicts; [|exact HF].
    apply tasks_for_Forall. by apply other_agents_return_dicts. }
  exists st'. split; [done|]. intros k Hk.
  pose proof (keeps_merge_results reply_keys results) as Hkeeps.
  destruct (Hkeeps
              ltac:(eapply gathered_avoid; [|exact HF];
                    apply tasks_for_Forall, other_agents_keep_reply_keys) st)
    as [Hkept _].
  rewrite Hmerge in Hkept. by apply Hkept.
Qed.

Lemma tasks_for_elem (name : string) (a : agent) (registry : list (string * agent))
  (ids : list string) :
  (name, a) ∈ registry → name ∈ ids → a ∈ tasks_for registry ids.
Proof.
  intros Hreg Hid. unfold tasks_for. apply (list_elem_of_fmap_2 snd _ (name, a)).
  by apply list_elem_of_filter.
Qed.

(** The reply of a run on a session. *)
Definition reply (s : session) (message : string) : string :=
  String.concat (newline +:+ newline)
    (reply_parts (conversation_history s)
       (if bool_decide ("recommendation" ∈ session_agents s message)
        then recommendation_lines (session_view s message)
        else [])).

(** X13.  What the customer is told comes from the recommendation agent alone.
    On every request that does not take the store branch of the inventory
    agent the graph returns, and its response consists of the greeting (on a
    first message), the count and the first three recommended products (when
    the recommendation agent was selected and found any), or else the
    fallback text: nothing that the inventory, payment, fulfillment, loyalty
    or support agent returned is part of it.  The session gains the message
    and this response as two turns of the conversation. *)
Theorem reply_comes_from_recommendations_alone (session_id : string) (s : session)
  (message channel : string) :
  store_branch (str_lower message) = false →
  ∃ st',
    orchestrator_graph data (graph_input session_id s message channel) = (st', Ok tt) ∧
    run_orchestrator data session_id s message channel = st' ∧
    dget "response" st' = Some (PStr (reply s message)) ∧
    run_orchestrator_session session_id s message channel
    = with_conversation_history
        (conversation_history s ++ [turn "user" (PStr message) channel;
                                    turn "assistant" (PStr (reply s message)) channel]) s.
Proof.
  intros Hbranch.
  set (st1 := classified session_id s message channel).
  assert (dget "agents_needed" st1 = Some (PList (map PStr (session_agents s message))))
    as Hneeded.
  { unfold st1, classified. rewrite dget_dset_ne by done. apply dget_dset_eq. }
  assert (dget "messages" st1 = Some (PList (conversation_history s))) as Hmsg1.
  { unfold st1. by rewrite classified_same. }
  assert (dget "recommendations" st1 = None) as Hrec1.
  { unfold st1. by rewrite classified_same. }
  assert (Forall (λ slot, dget slot st1 = None) unassigned_slots) as Hslots1.
  { unfold st1, unassigned_slots. repeat constructor; by rewrite classified_same. }
  enough (∃ st3,
            (if decide (should_call_agents st1 = "call_agents") then call_agents_node data
             else simple_response_node) st1 = (st3, Ok tt) ∧
            dget "messages" st3 = Some (PList (conversation_history s)) ∧
            when_slot "recommendations" recommendations_section st3
              = Ok (if bool_decide ("recommendation" ∈ session_agents s message)
                    then recommendation_lines (session_view s message)
                    else []) ∧
            Forall (λ slot, dget slot st3 = None) unassigned_slots)
    as (st3 & Hnode & Hmsg3 & Hrec3 & Hslots3).
  { assert (orchestrator_graph data (graph_input session_id s message channel)
            = (dset "response" (PStr (reply s message)) st3, Ok tt)) as Hgraph.
    { rewrite (orchestrator_graph_run _ _
                 (graph_input_classified session_id s message channel)).
      fold st1. rewrite (bind_run _ _ _ _ _ Hnode).
      by apply synthesize_from_recommendations. }
    eexists. split; [exact Hgraph|].
    split; [unfold run_orchestrator; by rewrite Hgraph|].
    split; [apply dget_dset_eq|].
    unfold run_orchestrator_session. rewrite Hgraph, dget_dset_eq.
    by rewrite <- app_assoc. }
  unfold should_call_agents. rewrite Hneeded. unfold truthy_opt.
  rewrite truthy_agent_list.
  destruct (decide (session_agents s message = [])) as [Hnil|Hne].
  - rewrite bool_decide_false by (by intros H). rewrite decide_False by done.
    exists (dset "response" (PStr (canned_reply (str_lower message))) st1).
    split.
    { unfold simple_response_node, mbind, M_bind, get_item.
      unfold st1 at 1. by rewrite classified_same. }
    split; [by rewrite dget_dset_ne|]. split.
    + rewrite Hnil. rewrite when_slot_empty; [done|].
      by rewrite dget_dset_ne, Hrec1.
    + eapply Forall_impl; [exact Hslots1|]. intros slot Hslot.
      destruct (decide (slot = "response")) as [->|Hr]; [|by rewrite dget_dset_ne].
      unfold st1 in Hslot. by rewrite classified_same in Hslot.
  - rewrite bool_decide_true by done. rewrite decide_True by done.
    pose proof (select_agents_loyalty _ _ Hne) as Hloyalty.
    fold (session_agents s message) in Hloyalty.
    assert (loyalty_agent data ∈ tasks_for other_agents (session_agents s message))
      as Hothers.
    { apply (tasks_for_elem "loyalty"); [|done]. unfold other_agents.
      do 3 (apply elem_of_cons; right). apply elem_of_cons. by left. }
    assert (tasks_for (registered_agents data) (session_agents s message)
            = if decide ("recommendation" ∈ session_agents s message)
              then recommendation_agent data
                   :: tasks_for other_agents (session_agents s message)
              else tasks_for other_agents (session_agents s message)) as Htasks.
    { unfold registered_agents. by rewrite tasks_for_cons. }
    unfold call_agents_node. rewrite (call_agents_node_run _ st1 _ Hneeded).
    2: { rewrite Htasks. case_decide; [done|]. intros Hnil. rewrite Hnil in Hothers.
         by apply elem_of_nil in Hothers. }
    destruct (gather_results (tasks_for (registered_agents data) (session_agents s message))
                st1 [orchestrator_entry (session_agents s message)])
      as (st2 & results & Hrun & Hsame & HF); [apply dget_dset_eq|].
    rewrite (bind_run _ _ _ _ _ Hrun). rewrite Htasks in HF. clear Htasks Hrun.
    destruct (decide ("recommendation" ∈ session_agents s message)) as [Hrec|Hrec].
    + rewrite bool_decide_true by done.
      apply Forall2_cons_inv_l in HF as (r & rest & (stx & Hsamex & ->) & HF & ->).
      assert (execute (recommendation_agent data) stx
              = recommendation_execute data (session_view s message)) as ->.
      { simpl. unfold on_view. by rewrite (view_of_classified _ _ _ _ _ Hsamex). }
      rewrite recommendation_execute_eq. cbn [coro_outcome result_of].
      set (found := PDict _).
      destruct (merge_of_other_agents session_id s message channel rest
                  (state_update found st2).1 Hbranch HF) as (st3 & Hmerge & Hkept).
      assert (∀ k, k ≠ "recommendations" → k ≠ "total_found" → k ≠ "agent_calls" →
                   dget k (state_update found st2).1 = dget k st1) as Hother.
      { intros k H1 H2 H3. unfold found, state_update, dupdate. cbn [fst fold_left].
        by rewrite !dget_dset_ne, (Hsame k). }
      exists st3. split; [exact Hmerge|].
      split; [by rewrite Hkept, Hother by (by apply (bool_decide_unpack _))|].
      split.
      * apply when_slot_recommendations. rewrite Hkept by (by left).
        unfold found, state_update, dupdate. cbn [fst fold_left].
        rewrite dget_dset_ne by done. apply dget_dset_eq.
      * apply Forall_forall. intros slot Hin.
        pose proof (proj1 (Forall_forall _ _) Hslots1 slot Hin) as Hslot.
        unfold unassigned_slots in Hin.
        repeat (apply elem_of_cons in Hin as [->|Hin]);
          [..|by apply elem_of_nil in Hin];
          by rewrite Hkept, Hother by (by apply (bool_decide_unpack _)).
    + rewrite bool_decide_false by done.
      destruct (merge_of_other_agents session_id s message channel results st2
                  Hbranch HF) as (st3 & Hmerge & Hkept).
      exists st3. split; [exact Hmerge|].
      split; [by rewrite Hkept, (Hsame "messages") by (by apply (bool_decide_unpack _))|].
      split.
      * apply when_slot_empty.
        by rewrite Hkept, (Hsame "recommendations"), Hrec1
          by (by apply (bool_decide_unpack _)).
      * apply Forall_forall. intros slot Hin.
        pose proof (proj1 (Forall_forall _ _) Hslots1 slot Hin) as Hslot.
        unfold unassigned_slots in Hin.
        repeat (apply elem_of_cons in Hin as [->|Hin]);
          [..|by apply elem_of_nil in Hin];
          by rewrite Hkept, Hsame by (by apply (bool_decide_unpack _)).
Qed.

(** ** From the classifier to the dispatcher *)

Lemma pick_agents_started :
  ∀ rec inv pay ful loy sup col,
    map fst (filter (λ na, na.1 ∈ pick_agents rec inv pay ful loy sup col)
                    (registered_agents data))
    ≡ₚ pick_agents rec inv pay ful loy sup col.
Proof.
  intros rec inv pay ful loy sup col.
  destruct rec, inv, pay, ful, loy, sup, col;
    apply (bool_decide_unpack _); vm_compute; exact I.
Qed.

(** X14.  Every agent the classifier selects is registered, and the dispatcher
    starts each selected agent exactly once: the ids of the started agents
    are a permutation of [agents_needed].  The order can differ, since a
    "recommendation" added for the cart comes last in [agents_needed] but
    first in the registry. *)
Theorem every_selected_agent_is_started (request : string) (cart_or_liked : bool) :
  let agents := select_agents request cart_or_liked in
  map fst (filter (λ na, na.1 ∈ agents) (registered_agents data)) ≡ₚ agents ∧
  length (tasks_for (registered_agents data) agents) = length agents.
Proof.
  intros agents.
  assert (map fst (filter (λ na, na.1 ∈ agents) (registered_agents data)) ≡ₚ agents)
    as Hperm.
  { unfold agents. rewrite select_agents_pick. apply pick_agents_started. }
  split; [exact Hperm|].
  rewrite <- Hperm at 2. unfold tasks_for. by rewrite !length_map.
Qed.

(** ** The inventory agent *)

(** The product ids [_check_stock] reports as unavailable. *)
Definition out_of_stock (product_id : string) : bool :=
  negb (bool_decide (product_id = "VH001"))
  && (bool_decide (product_id = "VH999") || str_contains "out" (str_lower product_id)).

Lemma check_stock_available (product_id : string) (size : option string)
  (location : string) :
  dget "available" (_check_stock data product_id size location)
  = Some (PBool (negb (out_of_stock product_id))).
Proof.
  unfold _check_stock, out_of_stock.
  case_decide; [by rewrite (bool_decide_true (product_id = "VH001"))|].
  rewrite (bool_decide_false (product_id = "VH001")) by done. by destruct (_ || _).
Qed.

Lemma omap_cons_eq {A B} (f : A → option B) (x : A) (l : list A) :
  omap f (x :: l) = match f x with Some y => y :: omap f l | None => omap f l end.
Proof. reflexivity. Qed.

(** X15.  Whether an item is available is decided by its product id alone (it is
    unavailable when the id is "VH999" or contains "out", and is not
    "VH001"): the size, the quantity, the location and the catalogue play no
    part.  The availability of a cart lists exactly the ids of its
    unavailable entries, in cart order and with repetitions. *)
Theorem cart_availability_by_product_id (cart : list cart_item) (location : string) :
  let missing := filter (λ pid, out_of_stock pid = true) (map ci_product_id cart) in
  _check_cart_availability data cart location
  = [("all_available", PBool (bool_decide (missing = [])));
     ("unavailable_items", PList (map PStr missing));
     ("message", PStr (if bool_decide (missing = []) then "All items available"
                       else "Some items unavailable"))].
Proof.
  intros missing. unfold _check_cart_availability.
  assert (omap (λ item,
                  if truthy_opt (dget "available"
                                   (_check_stock data (ci_product_id item) (ci_size item)
                                      location))
                  then None else Some (PStr (ci_product_id item))) cart
          = map PStr missing) as ->.
  { unfold missing. induction cart as [|item cart IH]; [done|].
    rewrite omap_cons_eq, check_stock_available, IH. cbn [map].
    rewrite filter_cons. unfold truthy_opt, truthy.
    by destruct (out_of_stock (ci_product_id item)). }
  assert (bool_decide (map PStr missing = []) = bool_decide (missing = [])) as ->.
  { by destruct missing. }
  done.
Qed.

Definition alternative_of (pid : string) (p : product) : pyval :=
  PDict [("product_id", PStr pid);
         ("name", PStr (p_name p));
         ("price", py_of_num (p_price p));
         ("similarity", PFloat 0.85)].

Lemma alternatives_loop_spec (product_id : string) (items : list (string * product))
  (acc : list pyval) (P : pyval → Prop) :
  (length acc < 3)%nat →
  Forall P acc →
  (∀ pid p, (pid, p) ∈ items → pid ≠ product_id → P (alternative_of pid p)) →
  (length (alternatives_loop product_id items acc) ≤ 3)%nat ∧
  Forall P (alternatives_loop product_id items acc).
Proof.
  revert acc. induction items as [|[pid p] items IH]; intros acc Hlen Hacc Hitems.
  - simpl. split; [lia|done].
  - cbn [alternatives_loop]. case_decide as Hpid.
    + case_bool_decide as Hfull.
      * rewrite length_app in *. simpl in *. split; [lia|].
        apply Forall_app. split; [done|]. repeat constructor.
        apply (Hitems pid p); [by left|done].
      * apply IH.
        -- lia.
        -- apply Forall_app. split; [done|]. repeat constructor.
           apply (Hitems pid p); [by left|done].
        -- intros pid' p' Hin. apply Hitems. by right.
    + apply IH; [done..|]. intros pid' p' Hin. apply Hitems. by right.
Qed.

(** X16.  [_find_alternative_products] proposes at most three alternatives, each a
    product of the catalogue file other than the product asked for; without
    a catalogue file it proposes none. *)
Theorem alternatives_are_other_products (product_id : string) :
  let alternatives := _find_alternative_products data product_id in
  (length alternatives ≤ 3)%nat ∧
  Forall (λ alt, ∃ pid p, (pid, p) ∈ inventory_products data ∧ pid ≠ product_id ∧
                          alt = alternative_of pid p) alternatives ∧
  (products_json data = None → alternatives = []).
Proof.
  intros alternatives. unfold alternatives, _find_alternative_products.
  destruct (alternatives_loop_spec product_id (inventory_products data) []
              (λ alt, ∃ pid p, (pid, p) ∈ inventory_products data ∧ pid ≠ product_id ∧
                               alt = alternative_of pid p)) as [Hlen Hall].
  - simpl. lia.
  - constructor.
  - intros pid p Hin Hne. by exists pid, p.
  - split; [done|]. split; [done|].
    unfold inventory_products. by intros ->.
Qed.

(** ** The session endpoints *)

Lemma session_agents_of_cart_or_liked (s : session) (message : string) :
  cart s ≠ [] ∨ liked_products s ≠ [] →
  "recommendation" ∈ session_agents s message ∧ "loyalty" ∈ session_agents s message.
Proof.
  intros Hne. unfold session_agents.
  assert (bool_decide (cart s ≠ []) || bool_decide (liked_products s ≠ []) = true) as ->.
  { destruct Hne; [rewrite (bool_decide_true (cart s ≠ [])) by done
                  |rewrite (bool_decide_true (liked_products s ≠ [])) by done];
      by rewrite ?orb_true_r. }
  pose proof (select_agents_recommendation (str_lower message)) as Hrec.
  split; [done|]. apply select_agents_loyalty. intros Hnil. rewrite Hnil in Hrec.
  by apply elem_of_nil in Hrec.
Qed.

(** X17.  Liking a product is idempotent and keeps the liked products free of
    duplicates; once a product is liked, every later message of the session
    is routed to the recommendation agent (and to the loyalty agent),
    whatever it says. *)
Theorem liking_routes_to_recommendations (product_id message : string) (s : session) :
  let s' := like_product product_id s in
  product_id ∈ liked_products s' ∧
  like_product product_id s' = s' ∧
  (NoDup (liked_products s) → NoDup (liked_products s')) ∧
  "recommendation" ∈ session_agents s' message ∧
  "loyalty" ∈ session_agents s' message.
Proof.
  intros s'.
  assert (product_id ∈ liked_products s') as Hin.
  { unfold s', like_product. case_bool_decide; [done|]. simpl.
    apply elem_of_app. right. by left. }
  split; [done|]. split.
  { unfold like_product at 1. by rewrite bool_decide_true. }
  split.
  { intros Hnd. unfold s', like_product. case_bool_decide as Hliked; [done|]. simpl.
    apply NoDup_app. split; [done|]. split; [|apply NoDup_singleton].
    intros x Hx ->%list_elem_of_singleton. done. }
  apply session_agents_of_cart_or_liked. right. intros Hnil. rewrite Hnil in Hin.
  by apply elem_of_nil in Hin.
Qed.

(** X18.  Adding an entry to the cart makes the total of the payment agent 2500
    for each unit, of the old entries and of the new one; on the first entry
    the total so drops from the 3950.0 of the empty cart to 2500 a unit.
    From then on every message is routed to the recommendation agent. *)
Theorem adding_to_cart_sets_the_total (cart_update : cart_item) (s : session)
  (message : string) :
  let s' := add_to_cart cart_update s in
  _calculate_total (cart s')
    = PInt (2500 * units (cart s) + 2500 * ci_quantity cart_update) ∧
  _calculate_total [] = PFloat 3950 ∧
  "recommendation" ∈ session_agents s' message.
Proof.
  intros s'. split; [|split; [done|]].
  - unfold s', add_to_cart. cbn [cart with_cart]. unfold _calculate_total.
    destruct (cart s ++ [cart_update]) as [|i items] eqn:Hcart.
    { by apply app_eq_nil in Hcart as [_ ?]. }
    rewrite <- Hcart, cart_value_units, units_app. f_equal. unfold units. simpl. lia.
  - apply session_agents_of_cart_or_liked. left. unfold s', add_to_cart. simpl.
    intros Hnil. by apply app_eq_nil in Hnil as [_ ?].
Qed.

(** X19.  [update_cart] changes the quantity of the first entry of the product
    and of no other: a second entry of the same product keeps its quantity,
    and so does everything else in the cart. *)
Theorem update_cart_changes_the_first_entry (cart_update : cart_item) (s : session)
  (before after : list cart_item) (item : cart_item) :
  cart s = before ++ item :: after →
  ci_product_id item = ci_product_id cart_update →
  ci_product_id cart_update ∉ map ci_product_id before →
  cart (update_cart cart_update s)
  = before ++ {| ci_product_id := ci_product_id item;
                 ci_quantity := ci_quantity cart_update;
                 ci_size := ci_size item |} :: after.
Proof.
  intros Hcart Hitem Hbefore. unfold update_cart. cbn [cart with_cart]. rewrite Hcart.
  clear Hcart. induction before as [|b before IH]; simpl.
  - by rewrite decide_True.
  - simpl in Hbefore. apply not_elem_of_cons in Hbefore as [Hb Hbefore].
    rewrite decide_False by done. f_equal. by apply IH.
Qed.

(** X20.  [update_cart] for a product that is not in the cart changes nothing. *)
Theorem update_cart_of_a_missing_product (cart_update : cart_item) (s : session) :
  ci_product_id cart_update ∉ map ci_product_id (cart s) →
  cart (update_cart cart_update s) = cart s.
Proof.
  intros Hmissing. unfold update_cart. cbn [cart with_cart].
  induction (cart s) as [|item items IH]; [done|]. simpl in *.
  apply not_elem_of_cons in Hmissing as [Hitem Hmissing].
  rewrite decide_False by done. f_equal. by apply IH.
Qed.

(** ** An agent awaited on its own *)


(** ** An agent that sleeps while others run *)













(** ** The slot sections of the synthesizer on what the agents return *)

Lemma dget_missing (k : string) (d : dict) : k ∉ keys d → dget k d = None.
Proof.
  unfold keys. induction d as [|[k' v] d IH]; [done|]. simpl.
  intros [Hne Hin]%not_elem_of_cons. rewrite decide_False by done. by apply IH.
Qed.

Lemma loyalty_result_points (v : view) (r : pyval) :
  loyalty_result data v = Ok r →
  ∃ d, r = PDict d ∧
       keys d = ["status"; "points_available"; "points_value"; "offers";
                 "discount_amount"; "original_price"; "final_price";
                 "savings"; "message"] ∧
       dget "points_available" d = Some (PInt (points_of (v_customer_id v))).
Proof.
  unfold loyalty_result, points_of, mbind, result_bind.
  repeat case_match; intros; simplify_eq; eauto.
Qed.

(** X23.  The loyalty section of the synthesizer cannot render what the loyalty
    agent returns: the agent reports the value of the points under the key
    "points_value", the section reads "value".  Whenever the customer has
    points, a state whose [loyalty_info] holds the agent's result makes
    [synthesize_response_node] raise KeyError. *)
Theorem loyalty_section_rejects_the_loyalty_result (v : view) (r : pyval) (st : dict) :
  loyalty_result data v = Ok r →
  points_of (v_customer_id v) ≠ 0 →
  dget "loyalty_info" st = Some r →
  truthy_opt (dget "recommendations" st) = false →
  truthy_opt (dget "inventory_status" st) = false →
  loyalty_section r = Err (KeyError "value") ∧
  synthesize_response_node st = (st, Err (KeyError "value")).
Proof.
  intros (d & -> & Hkeys & Hpoints)%loyalty_result_points Hne Hslot Hrecs Hinv.
  assert (loyalty_section (PDict d) = Err (KeyError "value")) as Hsection.
  { unfold loyalty_section, py_get, subscript. cbn [mbind result_bind].
    rewrite Hpoints. unfold truthy_opt, truthy.
    rewrite (proj2 (Z.eqb_neq _ _) Hne). cbn [negb mbind result_bind].
    rewrite (dget_missing "value") by (rewrite Hkeys; by apply (bool_decide_unpack _)).
    done. }
  split; [done|].
  assert (response_parts st = Err (KeyError "value")) as Hparts.
  { unfold response_parts, response_sections.
    rewrite (when_slot_empty "recommendations"), (when_slot_empty "inventory_status")
      by done.
    assert (when_slot "loyalty_info" loyalty_section st = Err (KeyError "value")) as ->.
    { unfold when_slot. rewrite Hslot.
      assert (truthy (PDict d) = true) as -> by (by destruct d).
      exact Hsection. }
    done. }
  unfold synthesize_response_node, mbind, M_bind, get_state, lift.
  by rewrite Hparts.
Qed.

(** X24.  The inventory section never shows the alternatives the inventory agent
    found: the agent returns them under the key "alternatives", the section
    reads "alternative", so for an unavailable product it always falls back
    to "Check other stores". *)
Theorem inventory_section_hides_the_alternatives (product_id : string)
  (size : option string) (location : string) :
  out_of_stock product_id = true →
  inventory_section (PDict (_check_stock data product_id size location))
  = Ok ["Currently unavailable. Alternative: Check other stores"].
Proof.
  unfold out_of_stock, _check_stock. intros [Hne Hout]%andb_true_iff.
  apply negb_true_iff, bool_decide_eq_false in Hne.
  rewrite decide_False by done. rewrite Hout. reflexivity.
Qed.

End Further.

(** * The further properties on concrete runs *)

Section FurtherRuns.
Local Existing Instance ascii_runtime.
Local Existing Instance ticking_world.

(** X1.  At the request "hello" of a fresh session nothing matches and the graph
    takes the edge to [simple_response]. *)
Lemma classifier_selects_nothing_iff_witness :
  should_call_agents (orchestrator_node (fresh_input "hello")).1 = "simple_response".
Proof.
  apply (proj2 (classifier_selects_nothing_iff (fresh_input "hello") "hello" []
                  eq_refl eq_refl)).
  split; [reflexivity|]. split; [reflexivity|].
  intros g Hg. unfold keyword_groups in Hg.
  repeat (apply elem_of_cons in Hg as [->|Hg]); [..|by apply elem_of_nil in Hg];
    vm_compute; reflexivity.
Defined.

(** A state that holds a request and nothing else. *)
Definition bare_request : dict := [("current_request", PStr "any discount?")].

(** X2, on [bare_request]: the loyalty agent is selected and stored before the KeyError. *)
Lemma orchestrator_node_without_log_witness :
  ∃ st',
    orchestrator_node bare_request = (st', Err (KeyError "agent_calls")) ∧
    dget "agents_needed" st' = Some (PList [PStr "loyalty"]).
Proof.
  destruct (orchestrator_node_without_log bare_request "any discount?" eq_refl eq_refl)
    as (agents & st' & Hrun & Hneeded & -> & _).
  exists st'. split; [exact Hrun|]. rewrite Hneeded. vm_compute. reflexivity.
Defined.

(** A state that asks for the loyalty agent before the recommendation
    agent. *)
Definition reversed_ids : dict :=
  [("current_request", PStr "hello");
   ("agent_calls", PList []);
   ("agents_needed", PList [PStr "loyalty"; PStr "recommendation"])].

(** X3, on [reversed_ids]: the recommendation agent is started before the loyalty agent. *)
Lemma dispatch_in_registry_order_witness :
  ∃ new,
    dget "agent_calls" (call_agents_node no_files reversed_ids).1 = Some (PList ([] ++ new)) ∧
    Forall2 logged
      (tasks_for (registered_agents no_files) ["loyalty"; "recommendation"]) new.
Proof.
  exact (dispatch_in_registry_order no_files reversed_ids ["loyalty"; "recommendation"] []
           eq_refl eq_refl).
Defined.

(** A state that asks for an agent that does not exist. *)
Definition unknown_id : dict :=
  [("agent_calls", PList []); ("agents_needed", PList [PStr "billing"])].

(** X4, on [unknown_id]. *)
Lemma unknown_agent_ids_are_ignored_witness :
  call_agents_node no_files unknown_id = (unknown_id, Ok tt).
Proof.
  apply (unknown_agent_ids_are_ignored no_files unknown_id ["billing"] eq_refl).
  intros i Hi. apply elem_of_cons in Hi as [->|Hi]; [|by apply elem_of_nil in Hi].
  apply (bool_decide_unpack _). vm_compute. exact I.
Defined.




(** X7, at the request "Which stores are nearby?" of a fresh session. *)
Lemma store_query_aborts_the_run_witness :
  dget "response" (run_orchestrator no_files "SESSION_1" empty_session
                     "Which stores are nearby?" "web")
  = Some (PStr apology).
Proof.
  rewrite (proj1 (store_query_aborts_the_run no_files "SESSION_1" empty_session
                    "Which stores are nearby?" "web"
                    ltac:(discriminate) eq_refl eq_refl eq_refl)).
  reflexivity.
Defined.

(** X8, on two carts of one and three units. *)
Lemma order_total_ignores_products_witness :
  _calculate_total
    [ {| ci_product_id := "VH001"; ci_quantity := 1; ci_size := Some "40" |};
      {| ci_product_id := "VH002"; ci_quantity := 3; ci_size := None |} ]
  = _calculate_total
      [ {| ci_product_id := "VH003"; ci_quantity := 3; ci_size := Some "M" |};
        {| ci_product_id := "VH003"; ci_quantity := 1; ci_size := Some "L" |} ].
Proof.
  apply order_total_ignores_products. simpl. apply Permutation_swap.
Defined.

(** A cart of one shirt. *)
Definition one_shirt : view :=
  {| v_request := "when will it be delivered?";
     v_cart := [ {| ci_product_id := "VH001"; ci_quantity := 1; ci_size := Some "40" |} ];
     v_liked := []; v_location := "Mumbai"; v_customer_id := "CUST001" |}.

(** X10, on [one_shirt]: one unit gets express delivery. *)
Lemma free_delivery_from_two_units_witness :
  ∃ d, fulfillment_execute one_shirt = Finish (Returned (PDict d)) ∧
       dget "recommended" d = Some (PStr "express").
Proof.
  destruct (free_delivery_from_two_units one_shirt ltac:(discriminate))
    as (d & Hrun & _ & Hrecommended & _).
  exists d. split; [exact Hrun|]. rewrite Hrecommended. reflexivity.
Defined.

(** X11, on [one_shirt]: one entry, no offer. *)
Lemma loyalty_succeeds_in_float_range_witness :
  ∃ d, loyalty_result no_files one_shirt = Ok (PDict d) ∧
       dget "offers" d = Some (PList []) ∧
       dget "original_price" d = Some (PInt 2500).
Proof.
  destruct (loyalty_succeeds_in_float_range no_files one_shirt)
    as (d & Hrun & _ & _ & Hprice & Hoffers).
  - vm_compute. by eexists.
  - vm_compute. by eexists.
  - exists d. split; [exact Hrun|]. split; [exact Hoffers|exact Hprice].
Defined.

(** X12, on [one_shirt] and the catalogue of the loader. *)
Lemma recommendation_never_empty_handed_witness :
  ∃ found,
    recommendation_execute no_files one_shirt
    = Finish (Returned (PDict
        [("recommendations", PList (map (recommendation_item one_shirt) (take 5 found)));
         ("total_found", PInt (Z.of_nat (length found)))])) ∧
    (1 ≤ length (take 5 found) ≤ 5)%nat.
Proof.
  destruct (recommendation_never_empty_handed no_files one_shirt ltac:(discriminate))
    as (found & Hrun & Hlen & _).
  exists found. split; [exact Hrun|exact Hlen].
Defined.

(** X13, at the request "I want to pay for a belt" of a fresh session. *)
Lemma reply_comes_from_recommendations_alone_witness :
  dget "response" (run_orchestrator no_files "SESSION_1" empty_session
                     "I want to pay for a belt" "web")
  = Some (PStr (reply no_files empty_session "I want to pay for a belt")).
Proof.
  destruct (reply_comes_from_recommendations_alone (rt := ascii_runtime)
              (world := ticking_world) no_files "SESSION_1" empty_session
              "I want to pay for a belt" "web")
    as (st' & _ & Hrun & Hresponse & _); [vm_compute; reflexivity|].
  rewrite Hrun. exact Hresponse.
Defined.

(** A session whose cart holds the same shirt twice. *)
Definition two_entries : session :=
  {| customer_id := "CUST001"; conversation_history := []; liked_products := [];
     cart := [ {| ci_product_id := "VH002"; ci_quantity := 1; ci_size := None |};
               {| ci_product_id := "VH001"; ci_quantity := 1; ci_size := Some "40" |};
               {| ci_product_id := "VH001"; ci_quantity := 1; ci_size := Some "42" |} ];
     location := "Mumbai" |}.

(** X19, on [two_entries]: the second entry of the shirt keeps its quantity. *)
Lemma update_cart_changes_the_first_entry_witness :
  cart (update_cart {| ci_product_id := "VH001"; ci_quantity := 2; ci_size := Some "42" |}
          two_entries)
  = [ {| ci_product_id := "VH002"; ci_quantity := 1; ci_size := None |};
      {| ci_product_id := "VH001"; ci_quantity := 2; ci_size := Some "40" |};
      {| ci_product_id := "VH001"; ci_quantity := 1; ci_size := Some "42" |} ].
Proof.
  apply (update_cart_changes_the_first_entry
           {| ci_product_id := "VH001"; ci_quantity := 2; ci_size := Some "42" |}
           two_entries
           [ {| ci_product_id := "VH002"; ci_quantity := 1; ci_size := None |} ]
           [ {| ci_product_id := "VH001"; ci_quantity := 1; ci_size := Some "42" |} ]
           {| ci_product_id := "VH001"; ci_quantity := 1; ci_size := Some "40" |}
           eq_refl eq_refl).
  apply (bool_decide_unpack _). vm_compute. exact I.
Defined.

(** X20, on [two_entries] and a product that is not in the cart. *)
Lemma update_cart_of_a_missing_product_witness :
  cart (update_cart {| ci_product_id := "VH003"; ci_quantity := 2; ci_size := None |}
          two_entries)
  = cart two_entries.
Proof.
  apply update_cart_of_a_missing_product.
  apply (bool_decide_unpack _). vm_compute. exact I.
Defined.



(** X23, on the result of the loyalty agent for [one_shirt]. *)
Lemma loyalty_section_rejects_the_loyalty_result_witness :
  ∃ r, loyalty_result no_files one_shirt = Ok r ∧
       loyalty_section r = Err (KeyError "value").
Proof.
  destruct (loyalty_result no_files one_shirt) as [r|e] eqn:Hr;
    [|vm_compute in Hr; discriminate].
  exists r. split; [reflexivity|].
  apply (loyalty_section_rejects_the_loyalty_result no_files one_shirt r
           [("loyalty_info", r)] Hr); [vm_compute; discriminate|reflexivity..].
Defined.

(** X24, for the product "VH999". *)
Lemma inventory_section_hides_the_alternatives_witness :
  inventory_section (PDict (_check_stock no_files "VH999" (Some "40") "Mumbai"))
  = Ok ["Currently unavailable. Alternative: Check other stores"].
Proof.
  apply inventory_section_hides_the_alternatives. vm_compute. reflexivity.
Defined.

End FurtherRuns.
